(** * MonteCarlo-Pi: the sampling / animation loop of [main.py]

    A shallow embedding of [monte_carlo_pi_animation] and [main].

    - Python integers are [Z].  [np.sum] returns a 64-bit count, which
      makes [inside_total] one; it stays below the number of samples drawn
      and is modelled without wrap-around.
    - The coordinates drawn by [np.random.uniform] are binary64 floats
      ([PrimFloat.float]); the properties hold for every stream of values,
      not only for those in the interval.
    - numpy's global generator is a stream of values with a cursor; a call
      [np.random.uniform(-1, 1, n)] takes the next [n] values.
    - [plt.pause] hands control to the GUI event loop: each call consumes one
      entry of a script, the button callbacks fired during the pause, in
      order, and whether the figure still exists afterwards.  Any callback
      may be fired at any pause: whether a click reaches a button whose axes
      are hidden is left to matplotlib.
    - The nested closures [stop], [resume], [restart], [start] mutate the
      variables of the enclosing function; they are state transformers.
    - The two texts of the figure are kept as the values they format.
    - [KeyboardInterrupt] and failures to allocate an array (sizes from
      2^60 on, or more than the memory holds) are not modelled; the
      [ValueError] that [np.random.uniform] raises on a negative size is.
    - [args.samples] is a [str], a list of code points; [int] takes the
      interpreter's Unicode tables and its limit on integer strings as
      parameters. *)

From Stdlib Require Import String Ascii ZArith List Bool Lia PrimFloat Uint63.
Import ListNotations.
Local Open Scope Z_scope.

(** ** numpy helpers *)

Module Np.

(** The state of the global generator: the stream of values it produces
    and how many of them have been consumed. *)
Record generator := mkGenerator {
  stream : N -> float;
  consumed : N
}.

Fixpoint take (s : N -> float) (i : N) (n : nat) : list float :=
  match n with
  | O => []
  | S n' => s i :: take s (N.succ i) n'
  end.

(** [np.random.uniform(-1, 1, n)]: the next [n] values, and the generator
    advanced by [n]. *)
Definition uniform (g : generator) (n : nat) : list float * generator :=
  (take (stream g) (consumed g) n,
   mkGenerator (stream g) (consumed g + N.of_nat n)).

(** [x**2 + y**2] on two arrays, element by element. *)
Fixpoint sq_add (x y : list float) : list float :=
  match x, y with
  | a :: x', b :: y' => (a * a + b * b)%float :: sq_add x' y'
  | _, _ => []
  end.

(** [dist_sq <= 1]. *)
Definition le_one (d : list float) : list bool :=
  map (fun v => PrimFloat.leb v 1%float) d.

(** [np.sum] of a boolean array: the number of [True]. *)
Fixpoint sum (b : list bool) : Z :=
  match b with
  | [] => 0
  | v :: b' => (if v then 1 else 0) + sum b'
  end.

(** An integer count as a binary64 float, as true division converts its
    operands (counts stay below 2^63). *)
Definition to_float (z : Z) : float := PrimFloat.of_uint63 (Uint63.of_Z z).

End Np.

(** ** Python's [range(start, stop, step)] for a positive step *)

Fixpoint range_from (fuel : nat) (i stop step : Z) : list Z :=
  match fuel with
  | O => []
  | S fuel' =>
      if i <? stop then i :: range_from fuel' (i + step) stop step else []
  end.

Definition range (start stop step : Z) : list Z :=
  range_from (Z.to_nat (stop - start)) start stop step.

(** ** The variables of [monte_carlo_pi_animation] *)

Inductive color := blue | red.

(** An entry of [point_queue]: [(x[i], y[i], color)]. *)
Definition point := (float * float * color)%type.

(** What the figure shows: the scatter plot, the two texts (the value each
    one formats, [None] for the empty text) and which artists are visible. *)
Record figure := mkFigure {
  scatter_offsets : list (float * float);
  scatter_colors : list color;
  pi_text : option float;
  samples_text : option (Z * Z);
  ax_visible : bool;
  circle_visible : bool;
  stop_visible : bool;
  resume_visible : bool;
  restart_visible : bool;
  start_visible : bool
}.

Record state := mkState {
  inside_total : Z;
  samples_done : Z;
  running : bool;
  disp_x : list float;
  disp_y : list float;
  disp_colors : list color;
  point_queue : list point;
  rng : Np.generator;
  fig : figure
}.

(** Lines 21-67 and 112: the state when the loop is entered. *)
Definition initial_figure : figure :=
  {| scatter_offsets := []; scatter_colors := [];
     pi_text := None; samples_text := None;
     ax_visible := false; circle_visible := false;
     stop_visible := false; resume_visible := false;
     restart_visible := false; start_visible := true |}.

Definition initial (g : Np.generator) : state :=
  {| inside_total := 0; samples_done := 0; running := false;
     disp_x := []; disp_y := []; disp_colors := [];
     point_queue := []; rng := g; fig := initial_figure |}.

(** ** The button callbacks *)

Definition reset_data
  : Z * Z * list float * list float * list color * list point :=
  (0, 0, [], [], [], []).

Definition stop (st : state) : state :=
  {| inside_total := inside_total st; samples_done := samples_done st;
     running := false;
     disp_x := disp_x st; disp_y := disp_y st; disp_colors := disp_colors st;
     point_queue := point_queue st; rng := rng st; fig := fig st |}.

Definition resume (st : state) : state :=
  {| inside_total := inside_total st; samples_done := samples_done st;
     running := true;
     disp_x := disp_x st; disp_y := disp_y st; disp_colors := disp_colors st;
     point_queue := point_queue st; rng := rng st; fig := fig st |}.

Definition restart (st : state) : state :=
  let '(inside_total', samples_done', disp_x', disp_y', disp_colors',
        point_queue') := reset_data in
  {| inside_total := inside_total'; samples_done := samples_done';
     running := false;
     disp_x := disp_x'; disp_y := disp_y'; disp_colors := disp_colors';
     point_queue := point_queue'; rng := rng st;
     fig := {| scatter_offsets := []; scatter_colors := [];
               pi_text := None; samples_text := None;
               ax_visible := false; circle_visible := false;
               stop_visible := false; resume_visible := false;
               restart_visible := false; start_visible := true |} |}.

Definition start (st : state) : state :=
  {| inside_total := inside_total st; samples_done := samples_done st;
     running := true;
     disp_x := disp_x st; disp_y := disp_y st; disp_colors := disp_colors st;
     point_queue := point_queue st; rng := rng st;
     fig := {| scatter_offsets := scatter_offsets (fig st);
               scatter_colors := scatter_colors (fig st);
               pi_text := pi_text (fig st);
               samples_text := samples_text (fig st);
               ax_visible := true; circle_visible := true;
               stop_visible := true; resume_visible := true;
               restart_visible := true; start_visible := false |} |}.

(** ** The GUI event loop behind [plt.pause] *)

Inductive button := START | STOP | RESUME | RESTART.

Definition on_clicked (b : button) : state -> state :=
  match b with
  | START => start
  | STOP => stop
  | RESUME => resume
  | RESTART => restart
  end.

(** One call of [plt.pause]: the callbacks fired while it ran, in order, and
    the answer of [plt.fignum_exists(fig.number)] right after it. *)
Record pause := mkPause {
  clicks : list button;
  fignum_exists : bool
}.

Definition plt_pause (st : state) (p : pause) : state :=
  fold_left (fun s b => on_clicked b s) (clicks p) st.

(** ** One pass through the loop body *)

(** What a run lets an observer see, in order. *)
Inductive event :=
| Sampled (current_batch inside_total' samples_done' : Z)
| Rendered (inside_total' samples_done' : Z) (offsets : list (float * float)).

Inductive exit := Exhausted | WindowClosed | ValueError.

Section Loop.

Variable num_samples : Z.
Variable batch_size : Z.

(** Lines 127-138.  [np.random.uniform] raises [ValueError] on a negative
    size, before anything is assigned: [None].  Sizes that numpy cannot
    allocate (from 2^60 on, or more than the memory holds) are outside the
    model. *)
Definition sample (st : state) : option (state * Z) :=
  let current_batch := Z.min batch_size (num_samples - samples_done st) in
  if current_batch <? 0 then None
  else
    let '(x, g1) := Np.uniform (rng st) (Z.to_nat current_batch) in
    let '(y, g2) := Np.uniform g1 (Z.to_nat current_batch) in
    let dist_sq := Np.sq_add x y in
    let inside := Np.le_one dist_sq in
    let step := Z.max 1 (current_batch / 200) in
    Some
      ({| inside_total := inside_total st + Np.sum inside;
          samples_done := samples_done st + current_batch;
          running := running st;
          disp_x := disp_x st; disp_y := disp_y st;
          disp_colors := disp_colors st;
          point_queue :=
            fold_left
              (fun q i =>
                 let color :=
                   if nth (Z.to_nat i) inside false then blue else red in
                 q ++ [(nth (Z.to_nat i) x 0%float,
                        nth (Z.to_nat i) y 0%float, color)])
              (range 0 current_batch step) (point_queue st);
          rng := g2; fig := fig st |}, current_batch).

(** Lines 141-144: [point_queue.pop(0)] and the three appends. *)
Definition drain_one (st : state) : state :=
  match point_queue st with
  | [] => st
  | (px, py, color) :: q =>
      {| inside_total := inside_total st; samples_done := samples_done st;
         running := running st;
         disp_x := disp_x st ++ [px]; disp_y := disp_y st ++ [py];
         disp_colors := disp_colors st ++ [color];
         point_queue := q; rng := rng st; fig := fig st |}
  end.

(** Line 140: [for _ in range(min(100, len(point_queue)))]. *)
Definition drain (st : state) : state :=
  Nat.iter (Nat.min 100 (length (point_queue st))) drain_one st.

(** Line 149. *)
Definition pi_estimate (st : state) : float :=
  (Np.to_float (inside_total st) / Np.to_float (samples_done st) * 4)%float.

(** Lines 146-151. *)
Definition render (st : state) : state :=
  {| inside_total := inside_total st; samples_done := samples_done st;
     running := running st;
     disp_x := disp_x st; disp_y := disp_y st; disp_colors := disp_colors st;
     point_queue := point_queue st; rng := rng st;
     fig := {| scatter_offsets := combine (disp_x st) (disp_y st);
               scatter_colors := disp_colors st;
               pi_text := Some (pi_estimate st);
               samples_text := Some (samples_done st, num_samples);
               ax_visible := ax_visible (fig st);
               circle_visible := circle_visible (fig st);
               stop_visible := stop_visible (fig st);
               resume_visible := resume_visible (fig st);
               restart_visible := restart_visible (fig st);
               start_visible := start_visible (fig st) |} |}.

(** Lines 126-153: the body of a pass that samples, drains and renders,
    up to its [plt.pause]. *)
Definition tick (st : state) : option (state * list event) :=
  let sampled :=
    if (length (point_queue st) =? 0)%nat then
      match sample st with
      | None => None
      | Some (st1, current_batch) =>
          Some (st1,
                [Sampled current_batch (inside_total st1) (samples_done st1)])
      end
    else Some (st, []) in
  match sampled with
  | None => None
  | Some (st1, evs) =>
      let st2 := render (drain st1) in
      Some (st2,
            evs ++ [Rendered (inside_total st2) (samples_done st2)
                             (scatter_offsets (fig st2))])
  end.

(** ** The loop *)

(** [exited = None]: the script ended with the loop still going. *)
Record outcome := mkOutcome {
  trace : list event;
  final : state;
  exited : option exit;
  unread : list pause
}.

Definition emit (evs : list event) (o : outcome) : outcome :=
  {| trace := evs ++ trace o; final := final o;
     exited := exited o; unread := unread o |}.

(** Lines 114-157.  Every pass either leaves the loop or calls [plt.pause]
    once, so the script is the measure.  On exhaustion [running[0] = False]
    is the assignment that [stop] makes. *)
Fixpoint loop (script : list pause) (st : state) : outcome :=
  if negb (running st) then
    match script with
    | [] => mkOutcome [] st None []
    | p :: script' =>
        let st1 := plt_pause st p in
        if negb (fignum_exists p) then
          mkOutcome [] st1 (Some WindowClosed) script'
        else loop script' st1
    end
  else if samples_done st >=? num_samples then
    mkOutcome [] (stop st) (Some Exhausted) script
  else
    match tick st with
    | None => mkOutcome [] st (Some ValueError) script
    | Some (st1, evs) =>
        emit evs
          match script with
          | [] => mkOutcome [] st1 None []
          | p :: script' =>
              let st2 := plt_pause st1 p in
              if negb (fignum_exists p) then
                mkOutcome [] st2 (Some WindowClosed) script'
              else loop script' st2
          end
    end.

End Loop.

(** Lines 11-19. *)
Definition default_batch_size (num_samples : Z) : Z :=
  if num_samples <=? 1000000 then 10000
  else if num_samples <=? 10000000 then 100000
  else if num_samples <=? 100000000 then 1000000
  else 5000000.

(** The whole function: the loop from the initial state; once the loop is
    left, [plt.close(fig)] and return. *)
Definition monte_carlo_pi_animation (num_samples : Z) (batch_size : option Z)
    (g : Np.generator) (script : list pause) : outcome :=
  let batch_size :=
    match batch_size with
    | None => default_batch_size num_samples
    | Some b => b
    end in
  loop num_samples batch_size script (initial g).

(** ** Command line: [main] *)

(** A Python [str]: its code points. *)
Definition str := list N.

(** The [str] of an ASCII literal. *)
Definition of_string (s : string) : str :=
  map N_of_ascii (list_ascii_of_string s).

(** [s.replace(old, '')] for a one-character [old]. *)
Fixpoint remove_char (old : N) (s : str) : str :=
  match s with
  | [] => []
  | c :: s' =>
      if (c =? old)%N then remove_char old s' else c :: remove_char old s'
  end.

(** What [int] takes from the interpreter: its tables of the Unicode white
    space and decimal digits, asked about code points from 127 on, and its
    limit on the number of digits of an integer string
    ([sys.get_int_max_str_digits()], 4300 unless configured, 0 for none). *)
Record interpreter := mkInterpreter {
  unicode_space : N -> bool;
  unicode_decimal : N -> option N;
  max_str_digits : Z
}.

(** Python's [int(s)] in base 10.  [None] is [ValueError]. *)
Module PyInt.

Section Int.

Variable py : interpreter.

(** A string that is not all ASCII is first rewritten code point by code
    point: below 127 as it is, white space as a space, a decimal digit as
    its ASCII digit, anything else as a question mark (where the
    interpreter also cuts the string: the parser fails on it either
    way). *)
Definition to_ascii (c : N) : N :=
  if (c <? 127)%N then c
  else if unicode_space py c then 32%N
  else
    match unicode_decimal py c with
    | Some d => if (d <? 10)%N then (48 + d)%N else 63%N
    | None => 63%N
    end.

Definition normalize (s : str) : str :=
  if forallb (fun c => (c <? 128)%N) s then s else map to_ascii s.

(** The parser of the ASCII text: optional white space, an optional sign,
    decimal digits with single underscores between them, optional white
    space. *)
Definition is_space (c : N) : bool :=
  ((9 <=? c) && (c <=? 13) || (c =? 32))%N.

Definition digit (c : N) : option Z :=
  if ((48 <=? c) && (c <=? 57))%N then Some (Z.of_N c - 48) else None.

Fixpoint all_space (s : str) : bool :=
  match s with
  | [] => true
  | c :: s' => is_space c && all_space s'
  end.

Fixpoint lstrip (s : str) : str :=
  match s with
  | [] => []
  | c :: s' => if is_space c then lstrip s' else s
  end.

(** [after_digit]: the character before was a digit, so the literal may end
    here or go on with an underscore. *)
Fixpoint digits (s : str) (acc : Z) (after_digit : bool) : option Z :=
  match s with
  | [] => if after_digit then Some acc else None
  | c :: s' =>
      match digit c with
      | Some d => digits s' (10 * acc + d) true
      | None =>
          if negb after_digit then None
          else if (c =? 95)%N then digits s' acc false
          else if all_space s then Some acc
          else None
      end
  end.

Fixpoint count_digits (s : str) : Z :=
  match s with
  | [] => 0
  | c :: s' =>
      match digit c with
      | Some _ => 1 + count_digits s'
      | None => count_digits s'
      end
  end.

(** More digits than the limit allows; up to 640 digits are never
    checked. *)
Definition too_long (s : str) : bool :=
  (640 <? count_digits s) && (0 <? max_str_digits py)
  && (max_str_digits py <? count_digits s).

Definition from_string (s : str) : option Z :=
  let value :=
    match lstrip s with
    | [] => None
    | c :: s' =>
        if (c =? 45)%N then option_map Z.opp (digits s' 0 false)
        else if (c =? 43)%N then digits s' 0 false
        else digits (c :: s') 0 false
    end in
  match value with
  | Some n => if too_long s then None else Some n
  | None => None
  end.

Definition int (s : str) : option Z := from_string (normalize s).

End Int.

End PyInt.

Definition invalid_samples : string := "Invalid number of samples provided.".

(** What [main] did: returned after the message, or called
    [monte_carlo_pi_animation]. *)
Inductive started :=
| NoRun
| Run (num_samples : Z) (o : outcome).

(** Lines 168-176, from the parsed arguments [args.samples] and
    [args.batch]; the first component is what was printed. *)
Definition main (py : interpreter) (samples : str) (batch : option Z)
    (g : Np.generator) (script : list pause) : list string * started :=
  match PyInt.int py (remove_char 95 (remove_char 44 samples)) with
  | None => ([invalid_samples], NoRun)
  | Some samples' =>
      if samples' <=? 0 then ([invalid_samples], NoRun)
      else ([], Run samples' (monte_carlo_pi_animation samples' batch g script))
  end.

(** The exit status of the process once it has ended: 1 after an exception
    that nothing catches, 0 after a return from [main]; [None] for a loop
    that is still going. *)
Definition exit_code (r : started) : option Z :=
  match r with
  | NoRun => Some 0
  | Run _ o =>
      match exited o with
      | Some ValueError => Some 1
      | Some _ => Some 0
      | None => None
      end
  end.

(** The controller state of the specification, read off the variables of a
    loop that is still going: the START overlay is shown exactly between a
    restart (or the beginning) and the next start. *)
Inductive ControllerState := Idle | Running | Paused | Finished.

Definition controller_state (st : state) : ControllerState :=
  if running st then Running
  else if start_visible (fig st) then Idle
  else Paused.

(** The controller state of a run: Finished once the loop has been left by
    exhaustion, and what the variables say otherwise. *)
Definition run_state (o : outcome) : ControllerState :=
  match exited o with
  | Some Exhausted => Finished
  | _ => controller_state (final o)
  end.

(** ** Notions used to state the properties *)

(** The ceiling of [a / b], for a positive [b]. *)
Definition ceil_div (a b : Z) : Z := (a + b - 1) / b.

(** The arrays [x], [y] and [inside] that a batch of [B] points drawn in
    state [st] consists of. *)
Definition batch_x (st : state) (B : Z) : list float :=
  fst (Np.uniform (rng st) (Z.to_nat B)).

Definition batch_y (st : state) (B : Z) : list float :=
  fst (Np.uniform (snd (Np.uniform (rng st) (Z.to_nat B))) (Z.to_nat B)).

Definition batch_inside (st : state) (B : Z) : list bool :=
  Np.le_one (Np.sq_add (batch_x st B) (batch_y st B)).

(** Point number [i] of that batch, as it is queued. *)
Definition batch_point (st : state) (B : Z) (i : nat) : point :=
  (nth i (batch_x st B) 0%float, nth i (batch_y st B) 0%float,
   if nth i (batch_inside st B) false then blue else red).

(** The sampler invocations of a trace: batch size and [samples_done]
    after it. *)
Fixpoint batches (tr : list event) : list (Z * Z) :=
  match tr with
  | [] => []
  | Sampled B _ d :: tr' => (B, d) :: batches tr'
  | Rendered _ _ _ :: tr' => batches tr'
  end.

(** The batches still to come when [done] samples are done: each one is
    [min(batch_size, num_samples - done)]. *)
Fixpoint schedule (num_samples batch_size : Z) (fuel : nat) (done : Z)
  : list (Z * Z) :=
  match fuel with
  | O => []
  | S fuel' =>
      if done >=? num_samples then []
      else
        let B := Z.min batch_size (num_samples - done) in
        (B, done + B) :: schedule num_samples batch_size fuel' (done + B)
  end.

(** No RESTART click in a script. *)
Definition no_restart (script : list pause) : Prop :=
  Forall (fun p => ~ In RESTART (clicks p)) script.

(** The value of a string of ASCII digits. *)
Definition decimal (ds : str) : Z :=
  fold_left (fun acc c => 10 * acc + (Z.of_N c - 48)) ds 0.

Definition is_digit (c : N) : bool :=
  match PyInt.digit c with
  | Some _ => true
  | None => false
  end.

(** The text [s] reads as the integer [n]: white space, an optional sign,
    one digit at least, white space. *)
Definition numeral (s : str) (n : Z) : Prop :=
  exists ws1 sign ds ws2,
    s = ws1 ++ sign ++ ds ++ ws2 /\
    PyInt.all_space ws1 = true /\ PyInt.all_space ws2 = true /\
    ds <> [] /\ forallb is_digit ds = true /\
    (sign = [] /\ n = decimal ds \/
     sign = [43%N] /\ n = decimal ds \/
     sign = [45%N] /\ n = - decimal ds).

(** The batch size the loop runs with (lines 11-19). *)
Definition effective_batch_size (num_samples : Z) (batch_size : option Z) : Z :=
  match batch_size with
  | None => default_batch_size num_samples
  | Some b => b
  end.

(** The running statistics an event carries. *)
Definition event_stats (e : event) : Z * Z :=
  match e with
  | Sampled _ i d => (i, d)
  | Rendered i d _ => (i, d)
  end.

(** The divisor of the estimate, for the events that compute one. *)
Definition divisor (e : event) : option Z :=
  match e with
  | Sampled _ _ _ => None
  | Rendered _ d _ => Some d
  end.

(** A generator and two scripts to run the program on: START, then [n]
    pauses without a click, the window left open. *)
Definition halves : Np.generator :=
  Np.mkGenerator (fun i => if N.even i then 0.5%float else 0.75%float) 0.

Definition idle : pause := mkPause [] true.

Definition press_start (n : nat) : list pause :=
  mkPause [START] true :: repeat idle n.

(** A bound on the passes a running loop still makes: four for each sample
    still to draw, one for each hundred of queued points. *)
Definition passes_left (num_samples : Z) (st : state) : Z :=
  4 * (num_samples - samples_done st) +
  (Z.of_nat (length (point_queue st)) + 99) / 100.

(** Two states with the same data: statistics, queue, displayed points,
    generator and what the figure shows. *)
Definition same_data (a b : state) : Prop :=
  samples_done a = samples_done b /\ inside_total a = inside_total b /\
  point_queue a = point_queue b /\
  disp_x a = disp_x b /\ disp_y a = disp_y b /\
  disp_colors a = disp_colors b /\ rng a = rng b /\
  scatter_offsets (fig a) = scatter_offsets (fig b) /\
  scatter_colors (fig a) = scatter_colors (fig b) /\
  pi_text (fig a) = pi_text (fig b) /\
  samples_text (fig a) = samples_text (fig b).

(** The clicks that set [running[0]] to [True]. *)
Definition wakes (b : button) : bool :=
  match b with
  | START | RESUME => true
  | STOP | RESTART => false
  end.

(** A pause during which no such click arrives. *)
Definition sleepy (p : pause) : Prop :=
  Forall (fun b => wakes b = false) (clicks p).

(** The displayed points, put back together from the three lists. *)
Definition displayed (st : state) : list point :=
  combine (combine (disp_x st) (disp_y st)) (disp_colors st).

(** The colour a point is given on line 137. *)
Definition well_coloured (p : point) : Prop :=
  let '(x, y, c) := p in
  c = if PrimFloat.leb (x * x + y * y) 1 then blue else red.

(** A trace in which every pass renders once, right after its sampler
    invocation if it has one and with the statistics that one left. *)
Fixpoint paced (tr : list event) : bool :=
  match tr with
  | [] => true
  | Rendered _ _ _ :: tr' => paced tr'
  | Sampled _ i d :: tr' =>
      match tr' with
      | Rendered i' d' _ :: tr'' => (i =? i') && (d =? d') && paced tr''
      | _ => false
      end
  end.

(** The three display lists go together, entry by entry. *)
Definition aligned (st : state) : Prop :=
  length (disp_x st) = length (disp_y st) /\
  length (disp_y st) = length (disp_colors st).

(** The number of [Rendered] events of a trace. *)
Fixpoint renders (tr : list event) : nat :=
  match tr with
  | [] => O
  | Sampled _ _ _ :: tr' => renders tr'
  | Rendered _ _ _ :: tr' => S (renders tr')
  end.

(** State [b] continues state [a]: the displayed points and the points
    displayed or queued have only grown at the end, and the statistics have
    not decreased. *)
Definition continues (a b : state) : Prop :=
  (exists shown, displayed b = displayed a ++ shown) /\
  (exists added,
     displayed b ++ point_queue b =
     displayed a ++ point_queue a ++ added) /\
  samples_done a <= samples_done b /\ inside_total a <= inside_total b.

(** The characters an integer literal is made of. *)
Definition numeral_char (c : N) : bool :=
  is_digit c || PyInt.is_space c || (c =? 95)%N || (c =? 43)%N || (c =? 45)%N.

(** An interpreter to run examples on: the default limit of 4300 digits,
    the white space of Unicode and, of its decimal digits, the
    Arabic-Indic ones (U+0660 to U+0669). *)
Definition reference_interpreter : interpreter :=
  {| unicode_space := fun c =>
       existsb (N.eqb c)
         [133; 160; 5760; 8232; 8233; 8239; 8287; 12288]%N
       || ((8192 <=? c) && (c <=? 8202))%N;
     unicode_decimal := fun c =>
       if ((1632 <=? c) && (c <=? 1641))%N then Some (c - 1632)%N else None;
     max_str_digits := 4300 |}.

(** The number of points drawn by the sampler invocations of a trace. *)
Definition samples_drawn (tr : list event) : Z :=
  fold_right (fun bd acc => fst bd + acc) 0 (batches tr).

(** * Properties *)

(** ** Arrays *)

Lemma take_length (s : N -> float) (n : nat) :
  forall i, length (Np.take s i n) = n.
Proof. induction n as [|n IH]; intros i; simpl; [reflexivity|]. now rewrite IH. Qed.

Lemma sq_add_length (x : list float) :
  forall y, length x = length y -> length (Np.sq_add x y) = length x.
Proof.
  induction x as [|a x IH]; intros [|b y] H; simpl in *; try discriminate;
    [reflexivity|].
  f_equal. apply IH. now injection H.
Qed.

Lemma le_one_length (d : list float) : length (Np.le_one d) = length d.
Proof. unfold Np.le_one. apply length_map. Qed.

Lemma sum_bounds (b : list bool) : 0 <= Np.sum b <= Z.of_nat (length b).
Proof.
  induction b as [|v b IH]; simpl length; simpl Np.sum; [lia|].
  destruct v; lia.
Qed.

(** ** [range] *)

Lemma ceil_div_spec (a b : Z) :
  0 < b -> b * (ceil_div a b - 1) < a <= b * ceil_div a b.
Proof.
  intros Hb. unfold ceil_div.
  pose proof (Z.div_mod (a + b - 1) b ltac:(lia)) as E.
  pose proof (Z.mod_pos_bound (a + b - 1) b Hb) as M.
  nia.
Qed.

Lemma ceil_div_nonpos (a b : Z) : 0 < b -> a <= 0 -> ceil_div a b <= 0.
Proof. intros Hb Ha. pose proof (ceil_div_spec a b Hb). nia. Qed.

Lemma ceil_div_step (a b : Z) :
  0 < b -> ceil_div a b = 1 + ceil_div (a - b) b.
Proof.
  intros Hb. unfold ceil_div.
  replace (a + b - 1) with ((a - b + b - 1) + 1 * b) by lia.
  rewrite Z.div_add by lia. lia.
Qed.

Lemma ceil_div_pos (a b : Z) : 0 < b -> 0 < a -> 0 < ceil_div a b.
Proof. intros Hb Ha. pose proof (ceil_div_spec a b Hb). nia. Qed.

Lemma range_from_indices (stop step : Z) (Hstep : 0 < step) (fuel : nat) :
  forall i,
    stop - i <= Z.of_nat fuel ->
    range_from fuel i stop step =
    map (fun k => i + Z.of_nat k * step)
        (seq 0 (Z.to_nat (ceil_div (stop - i) step))).
Proof.
  induction fuel as [|fuel IH]; intros i Hfuel.
  - simpl range_from.
    pose proof (ceil_div_nonpos (stop - i) step Hstep ltac:(lia)) as Hc.
    replace (Z.to_nat (ceil_div (stop - i) step)) with O by lia.
    reflexivity.
  - simpl range_from. destruct (i <? stop) eqn:Hlt.
    + apply Z.ltb_lt in Hlt.
      rewrite (ceil_div_step (stop - i) step Hstep).
      pose proof (ceil_div_spec (stop - i - step) step Hstep) as Hc.
      assert (0 <= ceil_div (stop - i - step) step) by nia.
      replace (Z.to_nat (1 + ceil_div (stop - i - step) step))
        with (S (Z.to_nat (ceil_div (stop - i - step) step))) by lia.
      rewrite <- cons_seq, <- seq_shift, map_cons, map_map.
      f_equal; [lia|].
      rewrite IH by lia.
      replace (stop - (i + step)) with (stop - i - step) by lia.
      apply map_ext. intros k. lia.
    + apply Z.ltb_ge in Hlt.
      pose proof (ceil_div_nonpos (stop - i) step Hstep ltac:(lia)) as Hc.
      replace (Z.to_nat (ceil_div (stop - i) step)) with O by lia.
      reflexivity.
Qed.

Lemma range_indices (stop step : Z) :
  0 < step ->
  range 0 stop step =
  map (fun k => Z.of_nat k * step) (seq 0 (Z.to_nat (ceil_div stop step))).
Proof.
  intros Hstep. unfold range.
  rewrite (range_from_indices stop step Hstep) by lia.
  now rewrite Z.sub_0_r.
Qed.

Lemma fold_left_append {A B : Type} (f : B -> A) (l : list B) :
  forall q, fold_left (fun q i => q ++ [f i]) l q = q ++ map f l.
Proof.
  induction l as [|i l IH]; intros q; simpl.
  - now rewrite app_nil_r.
  - rewrite IH, <- app_assoc. reflexivity.
Qed.

(** ** The loop body *)

Section Body.

Variable num_samples : Z.
Variable batch_size : Z.

Lemma batch_x_length (st : state) (B : Z) :
  length (batch_x st B) = Z.to_nat B.
Proof. apply take_length. Qed.

Lemma batch_y_length (st : state) (B : Z) :
  length (batch_y st B) = Z.to_nat B.
Proof. apply take_length. Qed.

Lemma batch_inside_length (st : state) (B : Z) :
  length (batch_inside st B) = Z.to_nat B.
Proof.
  unfold batch_inside.
  rewrite le_one_length, sq_add_length; rewrite batch_x_length;
    [reflexivity | now rewrite batch_y_length].
Qed.

(** What [sample] returns, field by field. *)
Lemma sample_Some (st st' : state) (B : Z) :
  sample num_samples batch_size st = Some (st', B) ->
  B = Z.min batch_size (num_samples - samples_done st) /\
  0 <= B /\
  inside_total st' = inside_total st + Np.sum (batch_inside st B) /\
  samples_done st' = samples_done st + B /\
  point_queue st' =
    point_queue st ++
    map (fun i => batch_point st B (Z.to_nat i))
        (range 0 B (Z.max 1 (B / 200))) /\
  running st' = running st /\
  disp_x st' = disp_x st /\ disp_y st' = disp_y st /\
  disp_colors st' = disp_colors st /\ fig st' = fig st.
Proof.
  unfold sample.
  set (c := Z.min batch_size (num_samples - samples_done st)).
  destruct (c <? 0) eqn:Hneg; [discriminate|].
  apply Z.ltb_ge in Hneg.
  intros H. injection H as <- <-. cbn [inside_total samples_done point_queue
    running disp_x disp_y disp_colors fig].
  rewrite fold_left_append.
  repeat split; try reflexivity; assumption.
Qed.

Lemma sample_None (st : state) :
  sample num_samples batch_size st = None <->
  Z.min batch_size (num_samples - samples_done st) < 0.
Proof.
  unfold sample.
  destruct (Z.min batch_size (num_samples - samples_done st) <? 0) eqn:Hneg.
  - apply Z.ltb_lt in Hneg. tauto.
  - apply Z.ltb_ge in Hneg. split; [discriminate | lia].
Qed.

Lemma skipn_firstn_next {A : Type} (q : list A) :
  forall n, (n < length q)%nat ->
    exists p, skipn n q = p :: skipn (S n) q /\
              firstn (S n) q = firstn n q ++ [p].
Proof.
  induction q as [|a q IH]; intros n Hn; simpl in Hn; [lia|].
  destruct n as [|n].
  - exists a. split; reflexivity.
  - destruct (IH n ltac:(lia)) as (p & Hs & Hf).
    exists p. split; [exact Hs|].
    change (firstn (S (S n)) (a :: q)) with (a :: firstn (S n) q).
    now rewrite Hf.
Qed.

Lemma drain_one_cons (s : state) (px py : float) (c : color) (q : list point) :
  point_queue s = (px, py, c) :: q ->
  drain_one s =
  mkState (inside_total s) (samples_done s) (running s)
          (disp_x s ++ [px]) (disp_y s ++ [py]) (disp_colors s ++ [c])
          q (rng s) (fig s).
Proof. unfold drain_one. intros ->. reflexivity. Qed.

(** [n] rounds of [pop(0)] move the first [n] queued points, in order. *)
Lemma drain_iter (st : state) (n : nat) :
  (n <= length (point_queue st))%nat ->
  let s := Nat.iter n drain_one st in
  point_queue s = skipn n (point_queue st) /\
  disp_x s = disp_x st ++ map (fun p => fst (fst p)) (firstn n (point_queue st)) /\
  disp_y s = disp_y st ++ map (fun p => snd (fst p)) (firstn n (point_queue st)) /\
  disp_colors s = disp_colors st ++ map snd (firstn n (point_queue st)) /\
  inside_total s = inside_total st /\ samples_done s = samples_done st /\
  running s = running st /\ rng s = rng st /\ fig s = fig st.
Proof.
  induction n as [|n IH]; intros Hn.
  - simpl. rewrite !app_nil_r. repeat split; reflexivity.
  - destruct (IH ltac:(lia)) as (Hq & Hx & Hy & Hc & Hi & Hd & Hr & Hg & Hf).
    destruct (skipn_firstn_next (point_queue st) n ltac:(lia))
      as ([[px py] col] & Hs & Hfn).
    cbn zeta. rewrite Nat.iter_succ.
    rewrite (drain_one_cons _ px py col _ (eq_trans Hq Hs)).
    cbn [point_queue disp_x disp_y disp_colors inside_total
      samples_done running rng fig].
    rewrite Hx, Hy, Hc, Hfn, !map_app, <- !app_assoc. simpl.
    repeat split; assumption.
Qed.

Lemma drain_spec (st : state) :
  let n := Nat.min 100 (length (point_queue st)) in
  point_queue (drain st) = skipn n (point_queue st) /\
  disp_x (drain st) =
    disp_x st ++ map (fun p => fst (fst p)) (firstn n (point_queue st)) /\
  disp_y (drain st) =
    disp_y st ++ map (fun p => snd (fst p)) (firstn n (point_queue st)) /\
  disp_colors (drain st) =
    disp_colors st ++ map snd (firstn n (point_queue st)) /\
  inside_total (drain st) = inside_total st /\
  samples_done (drain st) = samples_done st /\
  running (drain st) = running st /\ rng (drain st) = rng st /\
  fig (drain st) = fig st.
Proof. apply drain_iter. lia. Qed.

(** What a pass that reaches [tick] does. *)
Lemma tick_Some (st st' : state) (evs : list event) :
  tick num_samples batch_size st = Some (st', evs) ->
  exists st1 sampled,
    st' = render num_samples (drain st1) /\
    evs = sampled ++ [Rendered (inside_total st1) (samples_done st1)
                               (combine (disp_x (drain st1))
                                        (disp_y (drain st1)))] /\
    ((point_queue st = [] /\
      exists B, sample num_samples batch_size st = Some (st1, B) /\
                sampled = [Sampled B (inside_total st1) (samples_done st1)])
     \/ (point_queue st <> [] /\ st1 = st /\ sampled = [])).
Proof.
  unfold tick. destruct (point_queue st) as [|p q] eqn:Hq; simpl length.
  - simpl Nat.eqb. cbv iota.
    destruct (sample num_samples batch_size st) as [[st1 B]|] eqn:Hs;
      [|discriminate].
    intros H. injection H as <- <-.
    exists st1, [Sampled B (inside_total st1) (samples_done st1)].
    destruct (drain_spec st1) as (_ & _ & _ & _ & Hi & Hd & _).
    cbn [render inside_total samples_done fig scatter_offsets].
    rewrite Hi, Hd.
    split; [reflexivity|]. split; [reflexivity|].
    left. split; [reflexivity|]. exists B. split; reflexivity.
  - simpl Nat.eqb. cbv iota.
    intros H. injection H as <- <-.
    exists st, [].
    destruct (drain_spec st) as (_ & _ & _ & _ & Hi & Hd & _).
    cbn [render inside_total samples_done fig scatter_offsets].
    rewrite Hi, Hd.
    split; [reflexivity|]. split; [reflexivity|].
    right. split; [discriminate|]. split; reflexivity.
Qed.

Lemma tick_None (st : state) :
  tick num_samples batch_size st = None <->
  point_queue st = [] /\
  Z.min batch_size (num_samples - samples_done st) < 0.
Proof.
  unfold tick. destruct (point_queue st) as [|p q]; simpl length; simpl Nat.eqb;
    cbv iota.
  - destruct (sample num_samples batch_size st) as [[st1 B]|] eqn:Hs.
    + split; [discriminate|]. intros [_ H]. apply sample_None in H. congruence.
    + apply sample_None in Hs. tauto.
  - split; [discriminate|]. intros [H _]. discriminate.
Qed.

End Body.

(** ** The loop, case by case *)

Section LoopCases.

Variable num_samples : Z.
Variable batch_size : Z.

Local Abbreviation loop' := (loop num_samples batch_size).
Local Abbreviation tick' := (tick num_samples batch_size).

(** The induction principle that follows the passes of the loop. *)
Lemma loop_passes (Q : list pause -> state -> outcome -> Prop) :
  (forall st, running st = false -> Q [] st (mkOutcome [] st None [])) ->
  (forall st p s, running st = false -> fignum_exists p = false ->
     Q (p :: s) st (mkOutcome [] (plt_pause st p) (Some WindowClosed) s)) ->
  (forall st p s, running st = false -> fignum_exists p = true ->
     Q s (plt_pause st p) (loop' s (plt_pause st p)) ->
     Q (p :: s) st (loop' s (plt_pause st p))) ->
  (forall st s, running st = true -> num_samples <= samples_done st ->
     Q s st (mkOutcome [] (stop st) (Some Exhausted) s)) ->
  (forall st s, running st = true -> samples_done st < num_samples ->
     tick' st = None -> Q s st (mkOutcome [] st (Some ValueError) s)) ->
  (forall st st1 evs, running st = true -> samples_done st < num_samples ->
     tick' st = Some (st1, evs) ->
     Q [] st (emit evs (mkOutcome [] st1 None []))) ->
  (forall st st1 evs p s, running st = true ->
     samples_done st < num_samples -> tick' st = Some (st1, evs) ->
     fignum_exists p = false ->
     Q (p :: s) st
       (emit evs (mkOutcome [] (plt_pause st1 p) (Some WindowClosed) s))) ->
  (forall st st1 evs p s, running st = true ->
     samples_done st < num_samples -> tick' st = Some (st1, evs) ->
     fignum_exists p = true ->
     Q s (plt_pause st1 p) (loop' s (plt_pause st1 p)) ->
     Q (p :: s) st (emit evs (loop' s (plt_pause st1 p)))) ->
  forall s st, Q s st (loop' s st).
Proof.
  intros Hnil Hclosed Hwait Hdone Hcrash Htnil Htclosed Htick.
  induction s as [|p s IH]; intros st; simpl loop;
    destruct (running st) eqn:Hrun; cbn [negb].
  - destruct (samples_done st >=? num_samples) eqn:Hge.
    + apply Hdone; [assumption | lia].
    + destruct (tick' st) as [[st1 evs]|] eqn:Ht.
      * apply (Htnil st st1 evs); [assumption | lia | assumption].
      * apply Hcrash; [assumption | lia | assumption].
  - now apply Hnil.
  - destruct (samples_done st >=? num_samples) eqn:Hge.
    + apply Hdone; [assumption | lia].
    + destruct (tick' st) as [[st1 evs]|] eqn:Ht.
      * destruct (fignum_exists p) eqn:Hopen; cbn [negb].
        -- apply Htick; try assumption; [lia | apply IH].
        -- apply Htclosed; try assumption; lia.
      * apply Hcrash; [assumption | lia | assumption].
  - destruct (fignum_exists p) eqn:Hopen; cbn [negb].
    + apply Hwait; try assumption. apply IH.
    + now apply Hclosed.
Qed.

(** The pass that finds the samples exhausted: nothing is sampled, drained,
    drawn or read from the GUI. *)
Lemma loop_exhausted (st : state) (script : list pause) :
  running st = true -> num_samples <= samples_done st ->
  loop' script st = mkOutcome [] (stop st) (Some Exhausted) script.
Proof.
  intros Hrun Hge. destruct script; simpl loop; rewrite Hrun; cbn [negb];
    destruct (samples_done st >=? num_samples) eqn:E; try reflexivity; lia.
Qed.

(** An invariant of the states between passes holds at the end, and what it
    gives for the events of one pass holds of the whole trace. *)
Section Invariant.

Variable Inv : state -> Prop.
Variable P : event -> Prop.

Hypothesis Inv_click : forall st b, Inv st -> Inv (on_clicked b st).
Hypothesis Inv_tick : forall st st1 evs,
  Inv st -> running st = true -> samples_done st < num_samples ->
  tick' st = Some (st1, evs) -> Inv st1 /\ Forall P evs.

Lemma Inv_pause (p : pause) : forall st, Inv st -> Inv (plt_pause st p).
Proof.
  unfold plt_pause. induction (clicks p) as [|b l IH]; intros st H; simpl;
    [assumption|]. apply IH, Inv_click, H.
Qed.

Lemma loop_invariant (script : list pause) (st : state) :
  Inv st ->
  Inv (final (loop' script st)) /\ Forall P (trace (loop' script st)).
Proof.
  revert script st.
  apply (loop_passes (fun s st o => Inv st -> Inv (final o) /\ Forall P (trace o)));
    cbn [final trace emit]; intros.
  - split; [assumption | constructor].
  - split; [now apply Inv_pause | constructor].
  - apply H1. now apply Inv_pause.
  - split; [now apply (Inv_click st STOP) | constructor].
  - split; [assumption | constructor].
  - destruct (Inv_tick st st1 evs) as [Hi Hp]; try assumption.
    split; [assumption|]. now rewrite app_nil_r.
  - destruct (Inv_tick st st1 evs) as [Hi Hp]; try assumption.
    split; [now apply Inv_pause|]. now rewrite app_nil_r.
  - destruct (Inv_tick st st1 evs) as [Hi Hp]; try assumption.
    destruct H3 as [Hf Ht]; [now apply Inv_pause|].
    split; [assumption|]. apply Forall_app. now split.
Qed.

End Invariant.

(** Leaving by exhaustion means the target is reached, and [running] was
    set to [False] on the way out. *)
Lemma exhausted_reached (script : list pause) (st : state) :
  exited (loop' script st) = Some Exhausted ->
  num_samples <= samples_done (final (loop' script st)) /\
  running (final (loop' script st)) = false.
Proof.
  revert script st.
  apply (loop_passes (fun s st o =>
    exited o = Some Exhausted ->
    num_samples <= samples_done (final o) /\ running (final o) = false));
    cbn [final exited emit]; intros; try discriminate; auto.
Qed.

End LoopCases.

(** ** Default batch size *)

Lemma monte_carlo_pi_animation_loop (num_samples : Z) (batch_size : option Z)
    (g : Np.generator) (script : list pause) :
  monte_carlo_pi_animation num_samples batch_size g script =
  loop num_samples (effective_batch_size num_samples batch_size) script
       (initial g).
Proof. destruct batch_size; reflexivity. Qed.

(** C7: without [--batch] the batch size is read off the table, first row
    that applies: 10,000 up to 1,000,000 samples, 100,000 up to 10,000,000,
    1,000,000 up to 100,000,000 and 5,000,000 above; with [--batch] it is the
    given value; and this is the batch size the loop runs with. *)
Theorem default_batch_size_table (num_samples : Z) :
  (num_samples <= 1000000 /\ default_batch_size num_samples = 10000 \/
   1000000 < num_samples <= 10000000 /\
     default_batch_size num_samples = 100000 \/
   10000000 < num_samples <= 100000000 /\
     default_batch_size num_samples = 1000000 \/
   100000000 < num_samples /\ default_batch_size num_samples = 5000000) /\
  (forall g script,
     monte_carlo_pi_animation num_samples None g script =
     loop num_samples (default_batch_size num_samples) script (initial g)) /\
  (forall b g script,
     monte_carlo_pi_animation num_samples (Some b) g script =
     loop num_samples b script (initial g)).
Proof.
  split; [|split; reflexivity].
  unfold default_batch_size.
  destruct (num_samples <=? 1000000) eqn:E1; [left; lia|].
  destruct (num_samples <=? 10000000) eqn:E2; [right; left; lia|].
  destruct (num_samples <=? 100000000) eqn:E3; [right; right; left; lia|].
  right; right; right; lia.
Qed.

(** ** Restart *)

Lemma emit_nil (o : outcome) : emit [] o = o.
Proof. destruct o; reflexivity. Qed.

Lemma emit_emit (e1 e2 : list event) (o : outcome) :
  emit e1 (emit e2 o) = emit (e1 ++ e2) o.
Proof. unfold emit. cbn. now rewrite app_assoc. Qed.

Section Append.

Variable num_samples : Z.
Variable batch_size : Z.

(** Once the loop has been left, what the GUI would deliver next stays
    unread. *)
Lemma loop_app_exited (more : list pause) :
  forall script st e,
    exited (loop num_samples batch_size script st) = Some e ->
    loop num_samples batch_size (script ++ more) st =
    let o := loop num_samples batch_size script st in
    mkOutcome (trace o) (final o) (exited o) (unread o ++ more).
Proof.
  intros script st.
  apply (loop_passes num_samples batch_size (fun s st o =>
    forall e, exited o = Some e ->
    loop num_samples batch_size (s ++ more) st =
    mkOutcome (trace o) (final o) (exited o) (unread o ++ more)));
    cbn [exited trace final unread emit]; intros; try discriminate.
  - cbn [app]. simpl loop. rewrite H, H0. reflexivity.
  - cbn [app]. simpl loop. rewrite H, H0. cbn [negb]. eauto.
  - rewrite loop_exhausted by assumption. reflexivity.
  - destruct (s ++ more); simpl loop; rewrite H; cbn [negb];
      (destruct (samples_done st0 >=? num_samples) eqn:E; [lia|]);
      rewrite H1; reflexivity.
  - cbn [app]. simpl loop. rewrite H. cbn [negb].
    destruct (samples_done st0 >=? num_samples) eqn:E; [lia|].
    rewrite H1, H2. reflexivity.
  - cbn [app]. simpl loop. rewrite H. cbn [negb].
    destruct (samples_done st0 >=? num_samples) eqn:E; [lia|].
    rewrite H1, H2. cbn [negb]. rewrite (H3 e H4). reflexivity.
Qed.

(** While the loop is still going it is waiting in a [plt.pause]: the next
    pause is delivered to the state it has reached. *)
Lemma loop_app_pending (p : pause) :
  forall script st,
    exited (loop num_samples batch_size script st) = None ->
    loop num_samples batch_size (script ++ [p]) st =
    let o := loop num_samples batch_size script st in
    emit (trace o)
      (if negb (fignum_exists p) then
         mkOutcome [] (plt_pause (final o) p) (Some WindowClosed) []
       else loop num_samples batch_size [] (plt_pause (final o) p)).
Proof.
  intros script st.
  apply (loop_passes num_samples batch_size (fun s st o =>
    exited o = None ->
    loop num_samples batch_size (s ++ [p]) st =
    emit (trace o)
      (if negb (fignum_exists p) then
         mkOutcome [] (plt_pause (final o) p) (Some WindowClosed) []
       else loop num_samples batch_size [] (plt_pause (final o) p))));
    cbn [exited trace final unread emit]; intros; try discriminate.
  - cbn [app]. rewrite emit_nil. simpl loop. rewrite H. reflexivity.
  - cbn [app]. simpl loop. rewrite H, H0. cbn [negb]. eauto.
  - rewrite app_nil_r. cbn [app]. simpl loop. rewrite H. cbn [negb].
    destruct (samples_done st0 >=? num_samples) eqn:E; [lia|].
    rewrite H1. reflexivity.
  - cbn [app]. simpl loop. rewrite H. cbn [negb].
    destruct (samples_done st0 >=? num_samples) eqn:E; [lia|].
    rewrite H1, H2. cbn [negb]. rewrite (H3 H4), emit_emit. reflexivity.
Qed.

End Append.

Lemma pause_ending_in_restart (st : state) (cs : list button) (open : bool) :
  plt_pause st (mkPause (cs ++ [RESTART]) open) =
  initial (rng (plt_pause st (mkPause cs open))).
Proof. unfold plt_pause. cbn [clicks]. now rewrite fold_left_app. Qed.

(** C5, as amended: whatever the state, [restart] leaves the counters at
    zero, the displayed points and the queue empty, the scatter plot and
    texts cleared and the controller idle: it is the state the loop was
    entered with, the generator apart.  A RESTART click does this for as
    long as the loop is going, whether the controller is idle, running or
    paused; once the loop has been left by exhaustion the click is never
    read, and the state stays what it was. *)
Theorem restart_full_reset :
  (forall st,
     samples_done (restart st) = 0 /\ inside_total (restart st) = 0 /\
     disp_x (restart st) = [] /\ disp_y (restart st) = [] /\
     disp_colors (restart st) = [] /\ point_queue (restart st) = [] /\
     scatter_offsets (fig (restart st)) = [] /\
     controller_state (restart st) = Idle /\
     restart st = initial (rng st) /\
     on_clicked RESTART st = restart st /\
     (forall cs open,
        plt_pause st (mkPause (cs ++ [RESTART]) open) =
        initial (rng (plt_pause st (mkPause cs open))))) /\
  (forall num_samples batch_size script st cs,
     exited (loop num_samples batch_size script st) = None ->
     let o := loop num_samples batch_size
                (script ++ [mkPause (cs ++ [RESTART]) true]) st in
     exited o = None /\ run_state o = Idle /\
     final o = initial (rng (final o)) /\
     samples_done (final o) = 0 /\ inside_total (final o) = 0 /\
     disp_x (final o) = [] /\ disp_y (final o) = [] /\
     disp_colors (final o) = [] /\ point_queue (final o) = []) /\
  (forall num_samples batch_size script st more,
     exited (loop num_samples batch_size script st) = Some Exhausted ->
     let o := loop num_samples batch_size (script ++ more) st in
     run_state o = Finished /\
     final o = final (loop num_samples batch_size script st) /\
     trace o = trace (loop num_samples batch_size script st) /\
     unread o = unread (loop num_samples batch_size script st) ++ more).
Proof.
  split; [|split].
  - intros st. repeat split; try reflexivity.
    intros cs open. apply pause_ending_in_restart.
  - intros num_samples batch_size script st cs Hgo. cbn zeta.
    rewrite loop_app_pending by exact Hgo. cbn zeta.
    cbn [fignum_exists negb]. rewrite pause_ending_in_restart.
    unfold run_state. cbn. repeat split.
  - intros num_samples batch_size script st more Hexit. cbn zeta.
    rewrite (loop_app_exited num_samples batch_size more script st
               Exhausted Hexit).
    cbn zeta. unfold run_state. cbn [exited final trace unread].
    rewrite Hexit. repeat split.
Qed.

Lemma restart_full_reset_witness :
  let running_run := loop 500 200 (press_start 2) (initial halves) in
  let paused_run :=
    loop 500 200 (press_start 2 ++ [mkPause [STOP] true]) (initial halves) in
  let idle_run := loop 500 200 [idle] (initial halves) in
  let finished_run := loop 500 200 (press_start 5) (initial halves) in
  let click := [mkPause ([] ++ [RESTART]) true] in
  (exited running_run = None /\ run_state running_run = Running /\
   samples_done (final running_run) = 400 /\
   run_state (loop 500 200 (press_start 2 ++ click) (initial halves)) = Idle
   /\
   samples_done (final (loop 500 200 (press_start 2 ++ click)
                          (initial halves))) = 0) /\
  (exited paused_run = None /\ run_state paused_run = Paused /\
   run_state (loop 500 200 ((press_start 2 ++ [mkPause [STOP] true])
                              ++ click) (initial halves)) = Idle) /\
  (exited idle_run = None /\ run_state idle_run = Idle /\
   run_state (loop 500 200 ([idle] ++ click) (initial halves)) = Idle) /\
  (exited finished_run = Some Exhausted /\
   run_state (loop 500 200 (press_start 5 ++ click) (initial halves))
     = Finished /\
   final (loop 500 200 (press_start 5 ++ click) (initial halves))
     = final finished_run).
Proof.
  cbn zeta.
  destruct restart_full_reset as (_ & Hlive & Hdone).
  split; [|split; [|split]].
  - assert (E : exited (loop 500 200 (press_start 2) (initial halves)) = None)
      by (vm_compute; reflexivity).
    destruct (Hlive 500 200 (press_start 2) (initial halves) [] E)
      as (_ & Hs & _ & Hd & _).
    split; [exact E|]. split; [vm_compute; reflexivity|].
    split; [vm_compute; reflexivity|]. split; [exact Hs | exact Hd].
  - assert (E : exited (loop 500 200 (press_start 2 ++ [mkPause [STOP] true])
                          (initial halves)) = None)
      by (vm_compute; reflexivity).
    destruct (Hlive 500 200 _ (initial halves) [] E) as (_ & Hs & _).
    split; [exact E|]. split; [vm_compute; reflexivity | exact Hs].
  - assert (E : exited (loop 500 200 [idle] (initial halves)) = None)
      by (vm_compute; reflexivity).
    destruct (Hlive 500 200 _ (initial halves) [] E) as (_ & Hs & _).
    split; [exact E|]. split; [vm_compute; reflexivity | exact Hs].
  - assert (E : exited (loop 500 200 (press_start 5) (initial halves))
                = Some Exhausted) by (vm_compute; reflexivity).
    destruct (Hdone 500 200 (press_start 5) (initial halves)
                [mkPause ([] ++ [RESTART]) true] E) as (Hs & Hf & _).
    split; [exact E|]. split; [exact Hs | exact Hf].
Defined.

(** A run for one sample that has ended by exhaustion: the RESTART click
    that the GUI would deliver next resets nothing. *)
Lemma restart_after_finished_is_lost :
  ~ (forall num_samples batch_size g script cs,
       let o := monte_carlo_pi_animation num_samples batch_size g
                  (script ++ [mkPause (cs ++ [RESTART]) true]) in
       samples_done (final o) = 0 /\ run_state o = Idle).
Proof.
  intros H.
  destruct (H 1 None halves (press_start 1) []) as [Hd _].
  vm_compute in Hd. discriminate Hd.
Qed.

(** ** Running statistics *)

Lemma click_keeps_statistics (b : button) (st : state) :
  b <> RESTART ->
  samples_done (on_clicked b st) = samples_done st /\
  inside_total (on_clicked b st) = inside_total st /\
  point_queue (on_clicked b st) = point_queue st.
Proof. destruct b; intros H; try contradiction; repeat split. Qed.

Lemma pause_keeps_statistics (p : pause) :
  ~ In RESTART (clicks p) ->
  forall st,
    samples_done (plt_pause st p) = samples_done st /\
    inside_total (plt_pause st p) = inside_total st /\
    point_queue (plt_pause st p) = point_queue st.
Proof.
  unfold plt_pause. induction (clicks p) as [|b l IH]; intros Hno st; simpl.
  - repeat split.
  - destruct (IH (fun H => Hno (or_intror H)) (on_clicked b st))
      as (Hd & Hi & Hq).
    destruct (click_keeps_statistics b st) as (Hd' & Hi' & Hq').
    { intros ->. apply Hno. now left. }
    rewrite Hd, Hi, Hq. repeat split; assumption.
Qed.

Section Statistics.

Variable num_samples : Z.
Variable batch_size : Z.

(** How one pass changes the statistics: by a batch of [B] points, [c] of
    them inside, where [B] is the clamped batch size when the queue was
    empty and 0 otherwise. *)
Lemma tick_statistics (st st' : state) (evs : list event) :
  tick num_samples batch_size st = Some (st', evs) ->
  exists B c,
    0 <= c <= B /\
    (point_queue st = [] /\
       B = Z.min batch_size (num_samples - samples_done st) /\
       batches evs = [(B, samples_done st + B)]
     \/ point_queue st <> [] /\ B = 0 /\ batches evs = []) /\
    inside_total st' = inside_total st + c /\
    samples_done st' = samples_done st + B /\
    running st' = running st /\
    Forall (fun e => event_stats e = (inside_total st', samples_done st')) evs.
Proof.
  intros H. apply tick_Some in H.
  destruct H as (st1 & sampled & -> & -> & Hcase).
  destruct (drain_spec st1) as (_ & _ & _ & _ & Hi & Hd & Hr & _).
  cbn [render inside_total samples_done running]. rewrite Hi, Hd, Hr.
  destruct Hcase as [(Hq & B & Hs & ->) | (Hq & -> & ->)].
  - apply sample_Some in Hs.
    destruct Hs as (HB & HB0 & Hi1 & Hd1 & _ & Hr1 & _).
    exists B, (Np.sum (batch_inside st B)).
    pose proof (sum_bounds (batch_inside st B)) as Hsum.
    rewrite batch_inside_length in Hsum.
    split; [lia|]. split.
    + left. split; [assumption|]. split; [assumption|].
      cbn [batches app]. now rewrite Hd1.
    + repeat split; try assumption.
      repeat constructor.
  - exists 0, 0. split; [lia|]. split.
    + right. repeat split; assumption.
    + rewrite !Z.add_0_r. repeat split. repeat constructor.
Qed.

End Statistics.

(** C2: in every run, the statistics after each batch (and at each
    rendering, and at the end) satisfy
    [0 <= inside_total <= samples_done <= num_samples]; a batch of [B]
    points adds between 0 and [B] to [inside_total] and exactly [B] to
    [samples_done], without passing the target. *)
Theorem statistics_invariant (num_samples : Z) (batch_size : option Z)
    (g : Np.generator) (script : list pause) :
  let o := monte_carlo_pi_animation num_samples batch_size g script in
  Forall (fun e => 0 <= fst (event_stats e) <= snd (event_stats e) /\
                   snd (event_stats e) <= num_samples) (trace o) /\
  0 <= inside_total (final o) <= samples_done (final o) /\
  samples_done (final o) <= Z.max 0 num_samples /\
  (forall b st st' B,
     sample num_samples b st = Some (st', B) ->
     0 <= B /\
     0 <= inside_total st' - inside_total st <= B /\
     samples_done st' = samples_done st + B /\
     samples_done st' <= num_samples).
Proof.
  cbn zeta. rewrite monte_carlo_pi_animation_loop.
  set (b := effective_batch_size num_samples batch_size).
  destruct (loop_invariant num_samples b
    (fun st => 0 <= inside_total st <= samples_done st /\
               samples_done st <= Z.max 0 num_samples)
    (fun e => 0 <= fst (event_stats e) <= snd (event_stats e) /\
              snd (event_stats e) <= num_samples)) with (script := script)
    (st := initial g) as [Hfinal Htrace].
  - intros st [] H; cbn; try assumption; lia.
  - intros st st1 evs Hinv Hrun Hlt Htick.
    apply tick_statistics in Htick.
    destruct Htick as (B & c & Hc & Hcase & Hi & Hd & _ & Hevs).
    assert (HB : B <= num_samples - samples_done st)
      by (destruct Hcase as [(_ & -> & _) | (_ & -> & _)]; lia).
    split; [lia|].
    eapply Forall_impl; [|exact Hevs].
    intros e He. rewrite He. cbn [fst snd]. lia.
  - cbn. lia.
  - split; [exact Htrace|]. split; [tauto|]. split; [tauto|].
    intros b' st st' B Hs. apply sample_Some in Hs.
    destruct Hs as (HB & HB0 & Hi & Hd & _).
    pose proof (sum_bounds (batch_inside st B)) as Hsum.
    rewrite batch_inside_length in Hsum. lia.
Qed.

Lemma statistics_invariant_witness :
  let o := monte_carlo_pi_animation 500 (Some 200) halves (press_start 5) in
  exited o = Some Exhausted /\
  batches (trace o) = [(200, 200); (200, 400); (100, 500)] /\
  Forall (fun e => 0 <= fst (event_stats e) <= snd (event_stats e) /\
                   snd (event_stats e) <= 500) (trace o) /\
  match sample 500 200 (initial halves) with
  | Some (st', B) =>
      B = 200 /\ 0 <= inside_total st' - 0 <= B /\
      samples_done st' = 0 + B /\ samples_done st' <= 500
  | None => False
  end.
Proof.
  cbn zeta.
  split; [vm_compute; reflexivity|].
  split; [vm_compute; reflexivity|].
  pose proof (statistics_invariant 500 (Some 200) halves (press_start 5))
    as (Htrace & _ & _ & Hbatch).
  split; [exact Htrace|].
  destruct (sample 500 200 (initial halves)) as [[st' B]|] eqn:E.
  - split; [vm_compute in E; congruence|].
    apply (Hbatch 200 (initial halves) st' B E).
  - vm_compute in E. discriminate.
Defined.

(** ** Batches of a run *)

Lemma batches_app (t1 t2 : list event) :
  batches (t1 ++ t2) = batches t1 ++ batches t2.
Proof.
  induction t1 as [|[B i d|i d l] t1 IH]; simpl; [reflexivity| |assumption].
  now rewrite IH.
Qed.

Lemma Forall_batches (Pb : Z * Z -> Prop) (tr : list event) :
  Forall (fun e => Forall Pb (batches [e])) tr <-> Forall Pb (batches tr).
Proof.
  induction tr as [|e tr IH].
  - split; constructor.
  - change (e :: tr) with ([e] ++ tr) at 2. rewrite batches_app, Forall_app.
    split.
    + intros H. inversion H; subst. split; [assumption | now apply IH].
    + intros [H1 H2]. constructor; [assumption | now apply IH].
Qed.

Section Batches.

Variable num_samples : Z.
Variable batch_size : Z.

(** Every batch is clamped, and [samples_done] never passes the target. *)
Lemma loop_clamped (script : list pause) (st : state) :
  samples_done st <= Z.max 0 num_samples ->
  samples_done (final (loop num_samples batch_size script st))
    <= Z.max 0 num_samples /\
  Forall (fun bd => fst bd = Z.min batch_size (num_samples - (snd bd - fst bd))
                    /\ snd bd <= num_samples)
         (batches (trace (loop num_samples batch_size script st))).
Proof.
  intros H. rewrite <- Forall_batches.
  apply loop_invariant with (Inv := fun st => samples_done st <= Z.max 0 num_samples);
    [| |exact H].
  - intros s [] Hs; cbn; try assumption; lia.
  - intros s s1 evs Hs Hrun Hlt Htick.
    apply tick_statistics in Htick.
    destruct Htick as (B & c & Hc & Hcase & _ & Hd & _ & _).
    destruct Hcase as [(_ & HB & Hb) | (_ & HB & Hb)].
    + split; [lia|]. apply Forall_batches. rewrite Hb.
      constructor; [|constructor]. cbn [fst snd].
      replace (samples_done s + B - B) with (samples_done s) by lia. lia.
    + split; [lia|]. apply Forall_batches. rewrite Hb. constructor.
Qed.

Lemma schedule_exhausted (fuel : nat) (done : Z) :
  num_samples <= done -> schedule num_samples batch_size fuel done = [].
Proof.
  intros H. destruct fuel; simpl; [reflexivity|].
  destruct (done >=? num_samples) eqn:E; [reflexivity | lia].
Qed.

Hypothesis batch_size_pos : 1 <= batch_size.

(** Enough fuel is any fuel that covers the samples still to draw. *)
Lemma schedule_fuel (f : nat) :
  forall f' done,
    num_samples - done <= Z.of_nat f -> num_samples - done <= Z.of_nat f' ->
    schedule num_samples batch_size f done =
    schedule num_samples batch_size f' done.
Proof.
  induction f as [|f IH]; intros f' done Hf Hf'.
  - rewrite !schedule_exhausted by lia. reflexivity.
  - destruct f' as [|f'].
    + rewrite !schedule_exhausted by lia. reflexivity.
    + simpl. destruct (done >=? num_samples) eqn:E; [reflexivity|].
      f_equal. apply IH; lia.
Qed.

Lemma schedule_next (done : Z) :
  done < num_samples ->
  schedule num_samples batch_size (Z.to_nat (num_samples - done)) done =
  let B := Z.min batch_size (num_samples - done) in
  (B, done + B) ::
  schedule num_samples batch_size (Z.to_nat (num_samples - (done + B)))
           (done + B).
Proof.
  intros Hlt. cbn zeta.
  destruct (Z.to_nat (num_samples - done)) as [|f] eqn:Ef; [lia|].
  simpl. destruct (done >=? num_samples) eqn:E; [lia|].
  f_equal. apply schedule_fuel; lia.
Qed.

(** Between two restarts, a run that ends by exhaustion has drawn exactly
    the scheduled batches. *)
Lemma batches_schedule (script : list pause) (st : state) :
  no_restart script ->
  exited (loop num_samples batch_size script st) = Some Exhausted ->
  batches (trace (loop num_samples batch_size script st)) =
  schedule num_samples batch_size
           (Z.to_nat (num_samples - samples_done st)) (samples_done st).
Proof.
  revert script st.
  apply (loop_passes num_samples batch_size (fun s st o =>
    no_restart s -> exited o = Some Exhausted ->
    batches (trace o) =
    schedule num_samples batch_size
             (Z.to_nat (num_samples - samples_done st)) (samples_done st)));
    cbn [exited trace emit]; intros; try discriminate.
  - inversion H2; subst.
    destruct (pause_keeps_statistics p H6 st) as (Hd & _).
    rewrite <- Hd. now apply H1.
  - now rewrite schedule_exhausted.
  - inversion H4; subst.
    destruct (pause_keeps_statistics p H8 st1) as (Hd & _).
    rewrite batches_app, H3, Hd by assumption.
    apply tick_statistics in H1.
    destruct H1 as (B & c & _ & Hcase & _ & Hd1 & _).
    destruct Hcase as [(_ & HB & Hb) | (_ & HB & Hb)]; rewrite Hb, Hd1.
    + rewrite (schedule_next (samples_done st)) by assumption.
      cbn zeta. rewrite <- HB. reflexivity.
    + subst B. rewrite Z.add_0_r. reflexivity.
Qed.

End Batches.

(** ** Points left in the queue *)

Lemma subsample_count_bound (B : Z) :
  0 <= B -> ceil_div B (Z.max 1 (B / 200)) <= 399.
Proof.
  intros HB.
  pose proof (Z.div_mod B 200 ltac:(lia)) as E.
  pose proof (Z.mod_pos_bound B 200 ltac:(lia)) as M.
  assert (Hq : 0 <= B / 200) by (apply Z.div_pos; lia).
  assert (Hs : 0 < Z.max 1 (B / 200)) by lia.
  pose proof (ceil_div_spec B (Z.max 1 (B / 200)) Hs) as C.
  destruct (Z.eq_dec (B / 200) 0) as [Hz|Hnz].
  - rewrite Hz in *. change (Z.max 1 0) with 1 in *. lia.
  - replace (Z.max 1 (B / 200)) with (B / 200) in * by lia.
    nia.
Qed.

Lemma subsample_count_multiple (q : Z) :
  1 <= q -> ceil_div (200 * q) (Z.max 1 (200 * q / 200)) = 200.
Proof.
  intros Hq.
  replace (200 * q / 200) with q by (symmetry; rewrite Z.mul_comm; apply Z.div_mul; lia).
  replace (Z.max 1 q) with q by lia.
  unfold ceil_div.
  replace (200 * q + q - 1) with ((q - 1) + 200 * q) by lia.
  rewrite Z.div_add by lia. rewrite Z.div_small by lia. reflexivity.
Qed.

Section Queue.

Variable num_samples : Z.
Variable batch_size : Z.

(** The queue a pass leaves behind: what it found, or the subsample of the
    batch it drew, less the 100 points at most that it displayed. *)
Lemma tick_queue_length (st st' : state) (evs : list event) :
  tick num_samples batch_size st = Some (st', evs) ->
  let B := Z.min batch_size (num_samples - samples_done st) in
  let n := match point_queue st with
           | [] => Z.to_nat (ceil_div B (Z.max 1 (B / 200)))
           | _ => length (point_queue st)
           end in
  length (point_queue st') = (n - Nat.min 100 n)%nat.
Proof.
  intros Htick. apply tick_Some in Htick.
  destruct Htick as (st1 & sampled & -> & _ & Hcase).
  destruct (drain_spec st1) as (Hq1 & _).
  cbn [render point_queue]. rewrite Hq1, length_skipn.
  destruct Hcase as [(Hq & B & Hs & _) | (Hne & -> & _)].
  - apply sample_Some in Hs. destruct Hs as (HB & _ & _ & _ & Hq' & _).
    rewrite Hq' , Hq, app_nil_l, length_map.
    rewrite range_indices by lia. rewrite length_map, length_seq.
    cbn zeta. rewrite <- HB. reflexivity.
  - cbn zeta. destruct (point_queue st); [contradiction|reflexivity].
Qed.

Lemma loop_queue_bound (script : list pause) (st : state) :
  (length (point_queue st) <= 299)%nat ->
  (length (point_queue (final (loop num_samples batch_size script st)))
     <= 299)%nat.
Proof.
  intros H.
  apply (loop_invariant num_samples batch_size
           (fun st => (length (point_queue st) <= 299)%nat)
           (fun _ => True)); [| |exact H].
  - intros s [] Hs; cbn; try assumption; lia.
  - intros s s1 evs Hs Hrun Hlt Htick. split.
    + pose proof (tick_queue_length s s1 evs Htick) as Hlen.
      cbn zeta in Hlen. rewrite Hlen.
      destruct (point_queue s) as [|p q] eqn:Hq.
      * assert (HB : 0 <= Z.min batch_size (num_samples - samples_done s)).
        { apply tick_statistics in Htick.
          destruct Htick as (B & c & Hc & Hcase & _).
          destruct Hcase as [(_ & <- & _) | (Hne & _)]; [lia|].
          now contradiction Hne. }
        pose proof (subsample_count_bound _ HB). lia.
      * lia.
    + apply Forall_forall. intros; exact I.
Qed.

End Queue.

(** ** Reaching the end *)

Section Reach.

Variable num_samples : Z.
Variable batch_size : Z.
Hypothesis batch_size_pos : 1 <= batch_size.

Lemma idle_pause (st : state) : plt_pause st idle = st.
Proof. reflexivity. Qed.

(** Left alone, a running loop comes to the exhaustion exit: every pass
    either draws a batch of at least one point or empties the queue by 100
    points. *)
Lemma run_idle (n : nat) :
  forall st,
    running st = true ->
    (length (point_queue st) <= 299)%nat ->
    passes_left num_samples st <= Z.of_nat n ->
    exited (loop num_samples batch_size (repeat idle n) st) = Some Exhausted.
Proof.
  induction n as [|n IH]; intros st Hrun Hlen Hm.
  - assert (num_samples <= samples_done st).
    { unfold passes_left in Hm.
      assert (0 <= (Z.of_nat (length (point_queue st)) + 99) / 100)
        by (apply Z.div_pos; lia). lia. }
    rewrite loop_exhausted by assumption. reflexivity.
  - destruct (Z_le_gt_dec num_samples (samples_done st)) as [Hge|Hlt].
    + rewrite loop_exhausted by assumption. reflexivity.
    + cbn [repeat loop]. rewrite Hrun. cbn [negb].
      destruct (samples_done st >=? num_samples) eqn:E; [lia|].
      destruct (tick num_samples batch_size st) as [[st1 evs]|] eqn:Ht;
        [|apply tick_None in Ht; lia].
      cbn [emit exited idle fignum_exists negb]. rewrite idle_pause.
      pose proof (tick_queue_length _ _ _ _ _ Ht) as Hq. cbn zeta in Hq.
      pose proof Ht as Hs. apply tick_statistics in Hs.
      destruct Hs as (B & c & _ & Hcase & _ & Hd & Hr & _).
      pose proof (subsample_count_bound
                    (Z.min batch_size (num_samples - samples_done st))
                    ltac:(lia)) as Hcount.
      apply IH; [congruence | |].
      * rewrite Hq. destruct Hcase as [(Hq0 & _) | (Hne & _)].
        -- rewrite Hq0. lia.
        -- destruct (point_queue st); [contradiction | lia].
      * unfold passes_left in *. rewrite Hq, Hd.
        destruct Hcase as [(Hq0 & HB & _) | (Hne & HB & _)].
        -- rewrite Hq0 in *. cbn [length] in Hm.
           set (k := Z.to_nat _) in *.
           assert (k <= 399)%nat by (unfold k; lia).
           assert ((Z.of_nat (k - Nat.min 100 k) + 99) / 100 < 4)
             by (apply Z.div_lt_upper_bound; lia).
           change ((Z.of_nat 0 + 99) / 100) with 0 in Hm. lia.
        -- destruct (point_queue st) as [|p q] eqn:Eq; [contradiction|].
           subst B. rewrite Z.add_0_r.
           set (l := length (p :: q)) in *.
           assert (1 <= l)%nat by (unfold l; cbn; lia).
           assert ((Z.of_nat (l - Nat.min 100 l) + 99) / 100
                   <= (Z.of_nat l + 99) / 100 - 1).
           { destruct (Nat.le_gt_cases l 100).
             - replace (l - Nat.min 100 l)%nat with 0%nat by lia.
               change ((Z.of_nat 0 + 99) / 100) with 0.
               assert (1 <= (Z.of_nat l + 99) / 100)
                 by (apply Z.div_le_lower_bound; lia).
               lia.
             - replace (Z.of_nat (l - Nat.min 100 l) + 99)
                 with ((Z.of_nat l + 99) + (-1) * 100) by lia.
               rewrite Z.div_add by lia. lia. }
           lia.
Qed.

(** START and then enough pauses: the run ends by exhaustion, whatever the
    generator. *)
Lemma press_start_exhausts (g : Np.generator) (n : nat) :
  4 * num_samples <= Z.of_nat n ->
  exited (loop num_samples batch_size (press_start n) (initial g))
    = Some Exhausted.
Proof.
  intros Hn. unfold press_start.
  cbn [loop initial running negb fignum_exists].
  change (plt_pause (initial g) (mkPause [START] true))
    with (start (initial g)).
  apply run_idle; [reflexivity | cbn; lia |].
  unfold passes_left. cbn [start initial samples_done point_queue length].
  change ((Z.of_nat 0 + 99) / 100) with 0. lia.
Qed.

End Reach.

(** ** The batches of the scenarios *)

Lemma default_batch_size_pos (num_samples : Z) :
  1 <= effective_batch_size num_samples None.
Proof.
  cbn. unfold default_batch_size.
  repeat match goal with |- context [if ?c then _ else _] => destruct c end;
    lia.
Qed.

Lemma no_restart_press_start (n : nat) : no_restart (press_start n).
Proof.
  constructor.
  - cbn. intros [H|[]]. discriminate.
  - apply Forall_forall. intros p Hp. apply repeat_spec in Hp. subst p.
    cbn. tauto.
Qed.

(** C1: a run for a positive target that ends by exhaustion ends with
    [samples_done] equal to the target, every batch having been
    [min(batch_size, num_samples - samples_done)]; for 250,000 samples in
    batches of 100,000 the batches are 100000, 100000, 50000 and
    [samples_done] ends at 250000.  Such runs exist: with a batch size of at
    least 1, START followed by [4 * num_samples] pauses ends by exhaustion,
    whatever the generator. *)
Theorem finished_exactly_target :
  (forall num_samples batch_size g script,
     0 < num_samples ->
     let o := monte_carlo_pi_animation num_samples batch_size g script in
     exited o = Some Exhausted ->
     samples_done (final o) = num_samples /\
     Forall (fun bd =>
               fst bd = Z.min (effective_batch_size num_samples batch_size)
                              (num_samples - (snd bd - fst bd)) /\
               snd bd <= num_samples)
            (batches (trace o))) /\
  (forall g script,
     no_restart script ->
     let o := monte_carlo_pi_animation 250000 (Some 100000) g script in
     exited o = Some Exhausted ->
     batches (trace o) =
       [(100000, 100000); (100000, 200000); (50000, 250000)] /\
     samples_done (final o) = 250000) /\
  (forall num_samples batch_size g n,
     0 < num_samples ->
     1 <= effective_batch_size num_samples batch_size ->
     4 * num_samples <= Z.of_nat n ->
     let o :=
       monte_carlo_pi_animation num_samples batch_size g (press_start n) in
     exited o = Some Exhausted /\ samples_done (final o) = num_samples).
Proof.
  assert (General : forall num_samples batch_size g script,
     0 < num_samples ->
     let o := monte_carlo_pi_animation num_samples batch_size g script in
     exited o = Some Exhausted ->
     samples_done (final o) = num_samples /\
     Forall (fun bd =>
               fst bd = Z.min (effective_batch_size num_samples batch_size)
                              (num_samples - (snd bd - fst bd)) /\
               snd bd <= num_samples)
            (batches (trace o))).
  { intros num_samples batch_size g script Hpos. cbn zeta.
    rewrite monte_carlo_pi_animation_loop. intros Hexit.
    apply exhausted_reached in Hexit. destruct Hexit as [Hexit _].
    destruct (loop_clamped num_samples
                (effective_batch_size num_samples batch_size) script
                (initial g)) as [Hle Hall]; [cbn; lia|].
    split; [lia | exact Hall]. }
  split; [exact General|]. split.
  - intros g script Hno o Hexit.
    split;
      [|apply (General 250000 (Some 100000) g script); [lia | exact Hexit]].
    subst o. rewrite monte_carlo_pi_animation_loop in *.
    transitivity (schedule 250000 100000 (Z.to_nat (250000 - 0)) 0).
    + apply (batches_schedule 250000 100000 ltac:(lia) script (initial g)
               Hno Hexit).
    + vm_compute. reflexivity.
  - intros num_samples batch_size g n Hpos Hb Hn o.
    assert (Hexit : exited o = Some Exhausted).
    { subst o. rewrite monte_carlo_pi_animation_loop.
      apply press_start_exhausts; assumption. }
    split; [exact Hexit|].
    apply (General num_samples batch_size g (press_start n) Hpos Hexit).
Qed.

Lemma finished_exactly_target_witness :
  (0 < 500 /\
   exited (monte_carlo_pi_animation 500 (Some 200) halves (press_start 5))
     = Some Exhausted /\
   samples_done
     (final (monte_carlo_pi_animation 500 (Some 200) halves (press_start 5)))
     = 500) /\
  (no_restart (press_start 6) /\
   exited (monte_carlo_pi_animation 250000 (Some 100000) halves
             (press_start 6)) = Some Exhausted /\
   batches (trace (monte_carlo_pi_animation 250000 (Some 100000) halves
                     (press_start 6))) =
     [(100000, 100000); (100000, 200000); (50000, 250000)]).
Proof.
  split.
  - split; [lia|]. split; [vm_compute; reflexivity|].
    apply (proj1 finished_exactly_target 500 (Some 200) halves (press_start 5));
      [lia | vm_compute; reflexivity].
  - split; [apply no_restart_press_start|].
    split; [vm_compute; reflexivity|].
    apply (proj1 (proj2 finished_exactly_target) halves (press_start 6));
      [apply no_restart_press_start | vm_compute; reflexivity].
Defined.

(** C6: for 100,000 samples and the default batch size, a run that is not
    restarted and ends by exhaustion has invoked the sampler exactly 10
    times, each batch of 10,000, with [samples_done] going through 10000,
    20000, ..., 100000; a pass invokes the sampler exactly when it finds
    the queue empty; and START followed by 400,000 pauses or more is such a
    run, whatever the generator. *)
Theorem ten_batches_of_10000 :
  (forall g script,
     no_restart script ->
     let o := monte_carlo_pi_animation 100000 None g script in
     exited o = Some Exhausted ->
     batches (trace o) =
       map (fun k => (10000, 10000 * Z.of_nat k)) (seq 1 10) /\
     length (batches (trace o)) = 10%nat /\
     map snd (batches (trace o)) =
       [10000; 20000; 30000; 40000; 50000;
        60000; 70000; 80000; 90000; 100000]) /\
  (forall num_samples batch_size st st' evs,
     tick num_samples batch_size st = Some (st', evs) ->
     (point_queue st <> [] ->
        batches evs = [] /\ samples_done st' = samples_done st /\
        inside_total st' = inside_total st /\ rng st' = rng st) /\
     (point_queue st = [] ->
        batches evs =
          [(Z.min batch_size (num_samples - samples_done st),
            samples_done st')])) /\
  (forall g n,
     400000 <= Z.of_nat n ->
     exited (monte_carlo_pi_animation 100000 None g (press_start n))
       = Some Exhausted).
Proof.
  split; [|split].
  - intros g script Hno o Hexit.
    assert (E : batches (trace o) =
                map (fun k => (10000, 10000 * Z.of_nat k)) (seq 1 10)).
    { subst o. rewrite monte_carlo_pi_animation_loop in *.
      change (effective_batch_size 100000 None) with 10000 in *.
      transitivity (schedule 100000 10000 (Z.to_nat (100000 - 0)) 0).
      - apply (batches_schedule 100000 10000 ltac:(lia) script (initial g)
                 Hno Hexit).
      - vm_compute. reflexivity. }
    rewrite E. repeat split.
  - intros num_samples batch_size st st' evs Htick. split; intros Hq.
    + apply tick_Some in Htick.
      destruct Htick as (st1 & sampled & -> & -> & Hcase).
      destruct Hcase as [(Hq' & _) | (_ & -> & ->)]; [contradiction|].
      destruct (drain_spec st) as (_ & _ & _ & _ & Hi & Hd & _ & Hg & _).
      cbn [render inside_total samples_done rng batches app].
      repeat split; assumption.
    + apply tick_statistics in Htick.
      destruct Htick as (B & c & _ & Hcase & _ & Hd & _).
      destruct Hcase as [(_ & HB & Hb) | (Hq' & _)]; [|contradiction].
      rewrite Hb, Hd, HB. reflexivity.
  - intros g n Hn. rewrite monte_carlo_pi_animation_loop.
    apply press_start_exhausts; [apply default_batch_size_pos | lia].
Qed.

Lemma ten_batches_of_10000_witness :
  (no_restart (press_start 20) /\
   exited (monte_carlo_pi_animation 100000 None halves (press_start 20))
     = Some Exhausted /\
   map snd (batches (trace (monte_carlo_pi_animation 100000 None halves
                              (press_start 20)))) =
     [10000; 20000; 30000; 40000; 50000;
      60000; 70000; 80000; 90000; 100000]) /\
  match tick 100000 10000 (start (initial halves)) with
  | Some (st', evs) =>
      batches evs = [(Z.min 10000 (100000 - 0), samples_done st')] /\
      point_queue st' <> [] /\
      match tick 100000 10000 st' with
      | Some (st'', evs') =>
          batches evs' = [] /\ samples_done st'' = samples_done st'
      | None => False
      end
  | None => False
  end.
Proof.
  split.
  - split; [apply no_restart_press_start|].
    split; [vm_compute; reflexivity|].
    apply (proj1 ten_batches_of_10000 halves (press_start 20));
      [apply no_restart_press_start | vm_compute; reflexivity].
  - destruct (tick 100000 10000 (start (initial halves)))
      as [[st' evs]|] eqn:E1; [|vm_compute in E1; discriminate].
    split.
    + apply (proj2 (proj1 (proj2 ten_batches_of_10000) 100000 10000 _ st' evs
                      E1)).
      reflexivity.
    + assert (Hq : point_queue st' <> []).
      { apply tick_Some in E1.
        destruct E1 as (st1 & sampled & -> & _ & Hcase).
        destruct (drain_spec st1) as (Hq & _).
        cbn [render point_queue]. rewrite Hq.
        destruct Hcase as [(_ & B & Hs & _) | (Hne & _)];
          [|exfalso; apply Hne; reflexivity].
        apply sample_Some in Hs. destruct Hs as (HB & _ & _ & _ & Hq1 & _).
        rewrite Hq1. subst B. vm_compute. discriminate. }
      split; [exact Hq|].
      destruct (tick 100000 10000 st') as [[st'' evs']|] eqn:E2.
      * destruct (proj1 (proj1 (proj2 ten_batches_of_10000) 100000 10000 st'
                           st'' evs' E2) Hq) as (Hb & Hd & _).
        split; assumption.
      * apply tick_None in E2. destruct E2 as [E2 _]. contradiction.
Defined.

(** ** The estimate *)

Lemma divisor_stats (e : event) (d : Z) :
  divisor e = Some d -> snd (event_stats e) = d.
Proof. destruct e; cbn; congruence. Qed.

(** C9, as amended: with a batch size of at least 1, which every default
    batch size is, each time a pass computes the estimate [samples_done] is
    at least 1; for [num_samples >= 1] the first pass after START draws a
    batch of [min(batch_size, num_samples) >= 1] points. *)
Theorem estimate_divisor_positive :
  (forall num_samples, 1 <= effective_batch_size num_samples None) /\
  (forall num_samples batch_size g script,
     1 <= effective_batch_size num_samples batch_size ->
     Forall (fun e => forall d, divisor e = Some d -> 1 <= d)
            (trace (monte_carlo_pi_animation num_samples batch_size g script))
     /\
     (1 <= num_samples ->
      let b := effective_batch_size num_samples batch_size in
      1 <= Z.min b num_samples /\
      exists st1 evs,
        tick num_samples b (start (initial g)) = Some (st1, evs) /\
        batches evs = [(Z.min b num_samples, Z.min b num_samples)] /\
        samples_done st1 = Z.min b num_samples)).
Proof.
  split; [exact default_batch_size_pos|].
  intros num_samples batch_size g script Hb. split.
  - rewrite monte_carlo_pi_animation_loop.
    set (b := effective_batch_size num_samples batch_size) in *.
    apply (loop_invariant num_samples b
      (fun st => 0 <= samples_done st /\
                 (point_queue st <> [] -> 1 <= samples_done st))).
    + intros st [] [H0 Hq]; cbn; split; try assumption; try lia.
      intros H. now contradiction H.
    + intros st st1 evs [H0 Hq] Hrun Hlt Htick.
      apply tick_statistics in Htick.
      destruct Htick as (B & c & _ & Hcase & _ & Hd & _ & Hevs).
      assert (1 <= samples_done st1).
      { destruct Hcase as [(_ & -> & _) | (Hne & -> & _)];
          [lia | specialize (Hq Hne); lia]. }
      split; [split; [lia | intros _; assumption]|].
      eapply Forall_impl; [|exact Hevs].
      intros e He d Hdiv. apply divisor_stats in Hdiv.
      rewrite He in Hdiv. cbn in Hdiv. lia.
    + cbn. split; [lia|]. intros H. now contradiction H.
  - intros HN b. split; [lia|].
    destruct (tick num_samples b (start (initial g))) as [[st1 evs]|] eqn:E.
    + exists st1, evs. split; [reflexivity|].
      apply tick_statistics in E.
      destruct E as (B & c & _ & Hcase & _ & Hd & _).
      cbn [start initial samples_done point_queue] in *.
      destruct Hcase as [(_ & HB & Hbt) | (Hne & _)];
        [|exfalso; apply Hne; reflexivity].
      rewrite Hd, Hbt. rewrite Z.sub_0_r in HB. subst B.
      split; reflexivity.
    + apply tick_None in E. cbn [start initial samples_done] in E.
      destruct E as [_ E]. lia.
Qed.

Lemma estimate_divisor_positive_witness :
  1 <= effective_batch_size 500 (Some 200) /\
  Forall (fun e => forall d, divisor e = Some d -> 1 <= d)
         (trace (monte_carlo_pi_animation 500 (Some 200) halves
                   (press_start 5))) /\
  1 <= Z.min 200 500.
Proof.
  split; [cbn; lia|].
  destruct (proj2 estimate_divisor_positive 500 (Some 200) halves
              (press_start 5)) as [Htrace Hfirst]; [cbn; lia|].
  split; [exact Htrace|].
  apply Hfirst. lia.
Defined.

(** With [--batch 0] the first pass draws no point and divides 0 by 0. *)
Lemma zero_batch_divides_by_zero :
  ~ (forall num_samples batch_size g script,
       1 <= num_samples ->
       Forall (fun e => forall d, divisor e = Some d -> 1 <= d)
              (trace (monte_carlo_pi_animation num_samples batch_size g
                        script))).
Proof.
  intros H.
  specialize (H 1 (Some 0) halves (press_start 0) ltac:(lia)).
  assert (E : trace (monte_carlo_pi_animation 1 (Some 0) halves
                       (press_start 0)) =
              [Sampled 0 0 0; Rendered 0 0 []])
    by (vm_compute; reflexivity).
  rewrite E in H. inversion H as [|? ? _ H2]; subst.
  inversion H2 as [|? ? H3 _]; subst.
  specialize (H3 0 eq_refl). lia.
Qed.

(** ** The end of a run *)

(** C3, as amended: the pass that finds [samples_done >= num_samples] sets
    [running] to [False] and leaves the loop at once, nothing sampled, drawn
    or read from the GUI any more (the clicks still to come stay unread);
    the function then closes the figure itself and returns, so the process
    ends with status 0 without the user closing the window. *)
Theorem exhausted_ends_the_run :
  (forall num_samples batch_size st script,
     running st = true -> num_samples <= samples_done st ->
     let o := loop num_samples batch_size script st in
     exited o = Some Exhausted /\ trace o = [] /\ unread o = script /\
     final o = stop st /\ running (final o) = false /\
     samples_done (final o) = samples_done st /\
     inside_total (final o) = inside_total st /\
     rng (final o) = rng st /\ fig (final o) = fig st) /\
  (forall num_samples batch_size g script,
     let o := monte_carlo_pi_animation num_samples batch_size g script in
     exited o = Some Exhausted ->
     num_samples <= samples_done (final o) /\ running (final o) = false /\
     exit_code (Run num_samples o) = Some 0).
Proof.
  split.
  - intros num_samples batch_size st script Hrun Hge. cbn zeta.
    rewrite loop_exhausted by assumption. cbn. repeat split.
  - intros num_samples batch_size g script o Hexit.
    cbn [exit_code]. rewrite Hexit. subst o.
    rewrite monte_carlo_pi_animation_loop in *.
    apply exhausted_reached in Hexit. tauto.
Qed.

Lemma exhausted_ends_the_run_witness :
  let st :=
    resume (final (monte_carlo_pi_animation 1 None halves
                     [mkPause [START] true; mkPause [STOP] true])) in
  (running st = true /\ 1 <= samples_done st /\
   exited (loop 1 10000 [mkPause [RESTART] true] st) = Some Exhausted /\
   unread (loop 1 10000 [mkPause [RESTART] true] st)
     = [mkPause [RESTART] true]) /\
  (exited (monte_carlo_pi_animation 1 None halves (press_start 1))
     = Some Exhausted /\
   exit_code (Run 1 (monte_carlo_pi_animation 1 None halves (press_start 1)))
     = Some 0).
Proof.
  cbn zeta.
  assert (Hrun : running
    (resume (final (monte_carlo_pi_animation 1 None halves
                      [mkPause [START] true; mkPause [STOP] true]))) = true)
    by reflexivity.
  assert (Hge : 1 <= samples_done
    (resume (final (monte_carlo_pi_animation 1 None halves
                      [mkPause [START] true; mkPause [STOP] true]))))
    by (vm_compute; discriminate).
  destruct (proj1 exhausted_ends_the_run 1 10000 _
              [mkPause [RESTART] true] Hrun Hge) as (He & _ & Hu & _).
  split; [repeat split; assumption|].
  assert (Hexit : exited (monte_carlo_pi_animation 1 None halves
                            (press_start 1)) = Some Exhausted)
    by (vm_compute; reflexivity).
  split; [exact Hexit|].
  apply (proj2 exhausted_ends_the_run 1 None halves (press_start 1) Hexit).
Defined.

(** A run for one sample: START, one pass, and the loop is left although
    every pause reported the window open; the RESTART click that would have
    come next is never read. *)
Lemma finished_exits_without_user :
  ~ (forall num_samples batch_size g script e,
       let o := monte_carlo_pi_animation num_samples batch_size g script in
       exited o = Some e -> exit_code (Run num_samples o) = Some 0 ->
       e = WindowClosed) /\
  let script := [mkPause [START] true; idle; mkPause [RESTART] true] in
  let o := monte_carlo_pi_animation 1 None halves script in
  forallb fignum_exists script = true /\
  exited o = Some Exhausted /\
  unread o = [mkPause [RESTART] true] /\
  samples_done (final o) = 1 /\
  controller_state (final o) <> Idle.
Proof.
  split.
  - intros H.
    specialize (H 1 None halves
                  [mkPause [START] true; idle; mkPause [RESTART] true]
                  Exhausted).
    cbn zeta in H.
    assert (E : Exhausted = WindowClosed)
      by (apply H; vm_compute; reflexivity).
    discriminate E.
  - cbn zeta. split; [reflexivity|].
    split; [vm_compute; reflexivity|].
    split; [vm_compute; reflexivity|].
    split; [vm_compute; reflexivity|].
    vm_compute. discriminate.
Qed.

(** ** What the last pass leaves behind *)

(** C10, as amended: the pass that finds the samples exhausted leaves the
    loop before the drain step, the queue and the displayed points as they
    were and nothing drawn; what a pass leaves in the queue is the subsample
    less the 100 points it displayed, 100 points for a batch size that is a
    multiple of 200, and the queue a run ends with holds at most 299
    points. *)
Theorem queue_left_at_exhaustion :
  (forall num_samples batch_size st script,
     running st = true -> num_samples <= samples_done st ->
     let o := loop num_samples batch_size script st in
     exited o = Some Exhausted /\ trace o = [] /\
     point_queue (final o) = point_queue st /\
     disp_x (final o) = disp_x st /\ disp_y (final o) = disp_y st /\
     disp_colors (final o) = disp_colors st /\
     scatter_offsets (fig (final o)) = scatter_offsets (fig st)) /\
  (forall num_samples batch_size g script,
     (length (point_queue
                (final (monte_carlo_pi_animation num_samples batch_size g
                          script))) <= 299)%nat) /\
  (forall num_samples batch_size st st' evs q,
     tick num_samples batch_size st = Some (st', evs) ->
     point_queue st = [] -> 1 <= q ->
     Z.min batch_size (num_samples - samples_done st) = 200 * q ->
     length (point_queue st') = 100%nat).
Proof.
  split; [|split].
  - intros num_samples batch_size st script Hrun Hge. cbn zeta.
    rewrite loop_exhausted by assumption. cbn. repeat split.
  - intros num_samples batch_size g script.
    rewrite monte_carlo_pi_animation_loop.
    apply loop_queue_bound. cbn. lia.
  - intros num_samples batch_size st st' evs q Htick Hq Hq1 HB.
    pose proof (tick_queue_length _ _ _ _ _ Htick) as Hlen.
    cbn zeta in Hlen. rewrite Hq, HB, subsample_count_multiple in Hlen
      by assumption.
    rewrite Hlen. reflexivity.
Qed.

Lemma queue_left_at_exhaustion_witness :
  let o := monte_carlo_pi_animation 20000 None halves (press_start 3) in
  exited o = Some Exhausted /\
  length (point_queue (final o)) = 100%nat /\
  (length (point_queue (final o)) <= 299)%nat /\
  length (disp_x (final o)) = 300%nat /\
  exited (loop 20000 10000 [idle] (resume (final o))) = Some Exhausted /\
  point_queue (final (loop 20000 10000 [idle] (resume (final o)))) =
    point_queue (resume (final o)) /\
  match tick 20000 10000 (start (initial halves)) with
  | Some (st', _) => length (point_queue st') = 100%nat
  | None => False
  end.
Proof.
  cbn zeta.
  split; [vm_compute; reflexivity|].
  split; [vm_compute; reflexivity|].
  split; [apply (proj1 (proj2 queue_left_at_exhaustion))|].
  split; [vm_compute; reflexivity|].
  assert (Hge : 20000 <= samples_done
    (resume (final (monte_carlo_pi_animation 20000 None halves
                      (press_start 3)))))
    by (vm_compute; discriminate).
  assert (Hrun : running
    (resume (final (monte_carlo_pi_animation 20000 None halves
                      (press_start 3)))) = true) by reflexivity.
  destruct (proj1 queue_left_at_exhaustion 20000 10000 _ [idle] Hrun Hge)
    as (He & _ & Hq & _).
  split; [exact He|]. split; [exact Hq|].
  destruct (tick 20000 10000 (start (initial halves))) as [[st' evs]|] eqn:E.
  - apply (proj2 (proj2 queue_left_at_exhaustion) 20000 10000 _ st' evs 50 E);
      [reflexivity | lia | reflexivity].
  - vm_compute in E. discriminate.
Defined.

(** A run for 399 samples: the one batch queues all 399 points, 100 are
    displayed, and the loop is left with 299 in the queue. *)
Lemma queue_leftover_exceeds_100 :
  ~ (forall num_samples batch_size g script,
       let o := monte_carlo_pi_animation num_samples batch_size g script in
       exited o = Some Exhausted ->
       (length (point_queue (final o)) <= 100)%nat).
Proof.
  intros H.
  specialize (H 399 None halves (press_start 1)). cbn zeta in H.
  assert (E : length (point_queue (final (monte_carlo_pi_animation 399 None
                halves (press_start 1)))) = 299%nat)
    by (vm_compute; reflexivity).
  rewrite E in H.
  specialize (H ltac:(vm_compute; reflexivity)). lia.
Qed.

(** ** Subsampling *)

(** C4: a batch of [B] points queues the points number 0, [step],
    [2 * step], ... of the batch, in that order, for
    [step = max(1, B // 200)]: [ceil(B / step)] points; the statistics grow
    by the whole batch, [B] samples and the number of its points that are
    inside. *)
Theorem subsample_stride (num_samples batch_size : Z) (st st' : state)
    (B : Z) :
  sample num_samples batch_size st = Some (st', B) ->
  let step := Z.max 1 (B / 200) in
  let n := Z.to_nat (ceil_div B step) in
  point_queue st' =
    point_queue st ++
    map (fun k => batch_point st B (k * Z.to_nat step)) (seq 0 n) /\
  length (point_queue st') = (length (point_queue st) + n)%nat /\
  step * (ceil_div B step - 1) < B <= step * ceil_div B step /\
  (forall k, (k < n)%nat -> (k * Z.to_nat step < Z.to_nat B)%nat) /\
  length (batch_x st B) = Z.to_nat B /\
  length (batch_y st B) = Z.to_nat B /\
  length (batch_inside st B) = Z.to_nat B /\
  inside_total st' = inside_total st + Np.sum (batch_inside st B) /\
  samples_done st' = samples_done st + B.
Proof.
  intros Hs step n. apply sample_Some in Hs.
  destruct Hs as (HB & HB0 & Hi & Hd & Hq & _).
  assert (Hstep : 0 < step) by (unfold step; lia).
  pose proof (ceil_div_spec B step Hstep) as Hc.
  assert (Hqueue : point_queue st' =
    point_queue st ++
    map (fun k => batch_point st B (k * Z.to_nat step)) (seq 0 n)).
  { rewrite Hq. f_equal. fold step. rewrite range_indices by assumption.
    rewrite map_map. apply map_ext. intros k. f_equal.
    rewrite Z2Nat.inj_mul, Nat2Z.id by lia. reflexivity. }
  split; [exact Hqueue|].
  split; [rewrite Hqueue, length_app, length_map, length_seq; reflexivity|].
  split; [exact Hc|].
  split.
  - intros k Hk. unfold n in Hk.
    assert (Z.of_nat k <= ceil_div B step - 1) by lia.
    apply Nat2Z.inj_lt. rewrite Nat2Z.inj_mul, !Z2Nat.id by lia. nia.
  - repeat split; try assumption.
    + apply batch_x_length.
    + apply batch_y_length.
    + apply batch_inside_length.
Qed.

Lemma subsample_stride_witness :
  match sample 1000 400 (initial halves) with
  | Some (st', B) =>
      B = 400 /\
      length (point_queue st') = (0 + Z.to_nat (ceil_div 400 2))%nat /\
      nth 3 (point_queue st') (0, 0, red)%float =
        batch_point (initial halves) 400 6 /\
      samples_done st' = 400 /\
      inside_total st' = Np.sum (batch_inside (initial halves) 400)
  | None => False
  end.
Proof.
  destruct (sample 1000 400 (initial halves)) as [[st' B]|] eqn:E.
  - assert (HB : B = 400) by (vm_compute in E; congruence). subst B.
    destruct (subsample_stride 1000 400 (initial halves) st' 400 E)
      as (Hq & Hl & _ & _ & _ & _ & _ & Hi & Hd).
    split; [reflexivity|]. split; [exact Hl|].
    split; [rewrite Hq; reflexivity|].
    split; [exact Hd | exact Hi].
  - vm_compute in E. discriminate.
Defined.

(** ** The [--samples] argument *)

Lemma remove_char_In (old c : N) (s : str) :
  In c (remove_char old s) <-> In c s /\ c <> old.
Proof.
  induction s as [|a s IH]; simpl; [tauto|].
  destruct (N.eqb_spec a old) as [->|Hne]; simpl; rewrite IH.
  - split; [tauto|]. intros [[<- | H] Hc]; [contradiction | tauto].
  - split; [|tauto]. intros [<- | H]; [split; [now left | assumption] | tauto].
Qed.

Section Parser.

Variable py : interpreter.

Lemma digit_range (c : N) (d : Z) :
  PyInt.digit c = Some d ->
  d = Z.of_N c - 48 /\ 0 <= d <= 9 /\ PyInt.is_space c = false /\
  c <> 95%N /\ c <> 43%N /\ c <> 45%N.
Proof.
  unfold PyInt.digit, PyInt.is_space.
  destruct ((48 <=? c) && (c <=? 57))%N eqn:E; [|discriminate].
  intros H. injection H as <-.
  apply andb_prop in E. destruct E as [E1 E2].
  apply N.leb_le in E1, E2.
  repeat split; try lia.
  destruct (9 <=? c)%N eqn:A, (c <=? 13)%N eqn:B, (c =? 32)%N eqn:C;
    try reflexivity; try apply N.leb_le in B; try apply N.eqb_eq in C; lia.
Qed.

Lemma space_not_digit (c : N) :
  PyInt.is_space c = true ->
  PyInt.digit c = None /\ c <> 95%N /\ c <> 43%N /\ c <> 45%N.
Proof.
  intros H. split.
  - destruct (PyInt.digit c) as [d|] eqn:E; [|reflexivity].
    apply digit_range in E. destruct E as (_ & _ & E & _). congruence.
  - unfold PyInt.is_space in H. apply orb_prop in H.
    destruct H as [H|H].
    + apply andb_prop in H. destruct H as [H1 H2].
      apply N.leb_le in H1, H2. repeat split; lia.
    + apply N.eqb_eq in H. repeat split; lia.
Qed.

Lemma digit_is_digit (c : N) (d : Z) :
  PyInt.digit c = Some d -> is_digit c = true.
Proof. unfold is_digit. now intros ->. Qed.

Lemma is_digit_digit (c : N) :
  is_digit c = true -> PyInt.digit c = Some (Z.of_N c - 48).
Proof.
  unfold is_digit. destruct (PyInt.digit c) as [d|] eqn:E; [|discriminate].
  apply digit_range in E. destruct E as (-> & _). reflexivity.
Qed.

(** What [digits] accepts in a text without underscores: digits, then
    white space. *)
Lemma digits_sound (s : str) :
  forall acc after_digit v,
    ~ In 95%N s ->
    PyInt.digits s acc after_digit = Some v ->
    exists ds ws,
      s = ds ++ ws /\ forallb is_digit ds = true /\
      PyInt.all_space ws = true /\
      v = fold_left (fun acc c => 10 * acc + (Z.of_N c - 48)) ds acc /\
      (after_digit = false -> ds <> []).
Proof.
  induction s as [|c s IH]; intros acc after_digit v Hno H; simpl in H.
  - destruct after_digit; [|discriminate]. injection H as <-.
    exists [], []. repeat split. discriminate.
  - destruct (PyInt.digit c) as [d|] eqn:Hd.
    + destruct (IH _ _ _ (fun F => Hno (or_intror F)) H)
        as (ds & ws & -> & Hds & Hws & -> & _).
      exists (c :: ds), ws.
      pose proof (digit_is_digit c d Hd) as Hc.
      apply digit_range in Hd. destruct Hd as (-> & _).
      split; [reflexivity|]. split; [cbn; now rewrite Hc|].
      repeat split; try assumption. discriminate.
    + destruct after_digit; cbn [negb] in H; [|discriminate].
      destruct (N.eqb_spec c 95) as [->|Hne];
        [exfalso; apply Hno; now left|].
      destruct (PyInt.is_space c && PyInt.all_space s)%bool eqn:Hs;
        [|discriminate].
      injection H as <-. exists [], (c :: s).
      repeat split; try assumption. discriminate.
Qed.

Lemma digits_complete (ds : str) :
  forall ws acc after_digit,
    forallb is_digit ds = true -> PyInt.all_space ws = true ->
    ds <> [] \/ after_digit = true ->
    PyInt.digits (ds ++ ws) acc after_digit =
    Some (fold_left (fun acc c => 10 * acc + (Z.of_N c - 48)) ds acc).
Proof.
  induction ds as [|c ds IH]; intros ws acc after_digit Hds Hws Hne.
  - destruct Hne as [Hne | ->]; [contradiction|]. cbn [app fold_left].
    destruct ws as [|c ws]; [reflexivity|].
    pose proof Hws as Hws'. cbn in Hws'. apply andb_prop in Hws'.
    destruct Hws' as [Hc _].
    destruct (space_not_digit c Hc) as (Hd & Hu & _).
    cbn [PyInt.digits]. rewrite Hd. cbn [negb].
    destruct (N.eqb_spec c 95); [contradiction|].
    now rewrite Hws.
  - cbn in Hds. apply andb_prop in Hds. destruct Hds as [Hc Hds].
    cbn [app PyInt.digits fold_left]. rewrite (is_digit_digit c Hc).
    apply IH; [assumption | assumption | now right].
Qed.

Lemma lstrip_split (s : str) :
  exists ws, s = ws ++ PyInt.lstrip s /\ PyInt.all_space ws = true.
Proof.
  induction s as [|c s (ws & IH & Hws)]; [exists []; split; reflexivity|].
  cbn [PyInt.lstrip]. destruct (PyInt.is_space c) eqn:Hc.
  - exists (c :: ws). split; [cbn; now rewrite <- IH|]. cbn.
    now rewrite Hc, Hws.
  - exists []. split; reflexivity.
Qed.

Lemma lstrip_app (ws : str) (c : N) (r : str) :
  PyInt.all_space ws = true -> PyInt.is_space c = false ->
  PyInt.lstrip (ws ++ c :: r) = c :: r.
Proof.
  induction ws as [|a ws IH]; intros Hws Hc; cbn.
  - now rewrite Hc.
  - cbn in Hws. apply andb_prop in Hws. destruct Hws as [Ha Hws].
    rewrite Ha. now apply IH.
Qed.

(** [from_string] and the grammar agree on a text without underscores. *)
Lemma from_string_numeral (s : str) (n : Z) :
  ~ In 95%N s ->
  PyInt.from_string py s = Some n <->
  numeral s n /\ PyInt.too_long py s = false.
Proof.
  intros Hno. unfold PyInt.from_string. split.
  - destruct (lstrip_split s) as (ws1 & Hs & Hws1).
    assert (Hno' : ~ In 95%N (PyInt.lstrip s)).
    { intros F. apply Hno. rewrite Hs. apply in_or_app. now right. }
    destruct (PyInt.lstrip s) as [|c s'] eqn:El; [discriminate|].
    assert (Hno'' : ~ In 95%N s') by (intros F; apply Hno'; now right).
    destruct (N.eqb_spec c 45) as [->|H45].
    + destruct (PyInt.digits s' 0 false) as [v|] eqn:Ed; [|discriminate].
      cbn [option_map]. destruct (PyInt.too_long py s); [discriminate|].
      intros H. injection H as <-. split; [|reflexivity].
      destruct (digits_sound s' 0 false v Hno'' Ed)
        as (ds & ws2 & -> & Hds & Hws2 & -> & Hne).
      exists ws1, [45%N], ds, ws2. repeat split; try assumption.
      * now apply Hne.
      * right. right. split; reflexivity.
    + destruct (N.eqb_spec c 43) as [->|H43].
      * destruct (PyInt.digits s' 0 false) as [v|] eqn:Ed; [|discriminate].
        destruct (PyInt.too_long py s); [discriminate|].
        intros H. injection H as <-. split; [|reflexivity].
        destruct (digits_sound s' 0 false v Hno'' Ed)
          as (ds & ws2 & -> & Hds & Hws2 & -> & Hne).
        exists ws1, [43%N], ds, ws2. repeat split; try assumption.
        -- now apply Hne.
        -- right. left. split; reflexivity.
      * destruct (PyInt.digits (c :: s') 0 false) as [v|] eqn:Ed;
          [|discriminate].
        destruct (PyInt.too_long py s); [discriminate|].
        intros H. injection H as <-. split; [|reflexivity].
        destruct (digits_sound (c :: s') 0 false v Hno' Ed)
          as (ds & ws2 & E & Hds & Hws2 & -> & Hne).
        exists ws1, [], ds, ws2. rewrite Hs, E.
        repeat split; try assumption.
        -- now apply Hne.
        -- left. split; reflexivity.
  - intros [(ws1 & sign & ds & ws2 & -> & Hws1 & Hws2 & Hne & Hds & Hsign) Hlen].
    rewrite Hlen.
    destruct ds as [|d0 ds]; [contradiction|].
    pose proof Hds as Hd0. cbn in Hd0. apply andb_prop in Hd0.
    destruct Hd0 as [Hd0 _]. pose proof (is_digit_digit d0 Hd0) as Ed0.
    apply digit_range in Ed0.
    destruct Ed0 as (_ & _ & Hsp & _ & H43 & H45).
    destruct Hsign as [[-> ->] | [[-> ->] | [-> ->]]].
    + cbn [app]. rewrite (lstrip_app ws1 d0 (ds ++ ws2)) by assumption.
      destruct (N.eqb_spec d0 45); [contradiction|].
      destruct (N.eqb_spec d0 43); [contradiction|].
      change (d0 :: ds ++ ws2) with ((d0 :: ds) ++ ws2).
      rewrite digits_complete; [reflexivity | assumption | assumption |].
      left. discriminate.
    + cbn [app]. rewrite (lstrip_app ws1 43 _) by (assumption || reflexivity).
      cbn [N.eqb Pos.eqb].
      change (d0 :: ds ++ ws2) with ((d0 :: ds) ++ ws2).
      rewrite digits_complete; [reflexivity | assumption | assumption |].
      left. discriminate.
    + cbn [app]. rewrite (lstrip_app ws1 45 _) by (assumption || reflexivity).
      cbn [N.eqb Pos.eqb].
      change (d0 :: ds ++ ws2) with ((d0 :: ds) ++ ws2).
      rewrite digits_complete; [reflexivity | assumption | assumption |].
      left. discriminate.
Qed.

End Parser.

Section Main.

Variable py : interpreter.

Lemma to_ascii_not_underscore (c : N) :
  c <> 95%N -> PyInt.to_ascii py c <> 95%N.
Proof.
  intros Hc. unfold PyInt.to_ascii.
  destruct (c <? 127)%N; [assumption|].
  destruct (unicode_space py c); [discriminate|].
  destruct (unicode_decimal py c) as [d|]; [|discriminate].
  destruct (N.ltb_spec d 10); [lia | discriminate].
Qed.

Lemma normalize_In (s : str) (x : N) :
  In x (PyInt.normalize py s) ->
  exists c, In c s /\ (x = c \/ x = PyInt.to_ascii py c).
Proof.
  unfold PyInt.normalize.
  destruct (forallb (fun c => (c <? 128)%N) s).
  - intros H. exists x. tauto.
  - intros H. apply in_map_iff in H. destruct H as (c & <- & Hc).
    exists c. tauto.
Qed.

Lemma In_normalize (s : str) (c : N) :
  In c s ->
  In c (PyInt.normalize py s) \/ In (PyInt.to_ascii py c) (PyInt.normalize py s).
Proof.
  unfold PyInt.normalize. intros H.
  destruct (forallb (fun c => (c <? 128)%N) s); [now left|].
  right. now apply in_map.
Qed.

Lemma normalize_no_underscore (s : str) :
  ~ In 95%N s -> ~ In 95%N (PyInt.normalize py s).
Proof.
  intros Hno F. apply normalize_In in F. destruct F as (c & Hc & [E|E]).
  - subst c. contradiction.
  - symmetry in E. revert E. apply to_ascii_not_underscore.
    intros ->. contradiction.
Qed.

Lemma cleaned_In (samples : str) (c : N) :
  In c (remove_char 95 (remove_char 44 samples)) <->
  In c samples /\ c <> 44%N /\ c <> 95%N.
Proof. rewrite !remove_char_In. tauto. Qed.

(** [int] on the cleaned argument, against the grammar. *)
Lemma int_cleaned (samples : str) (n : Z) :
  PyInt.int py (remove_char 95 (remove_char 44 samples)) = Some n <->
  numeral (PyInt.normalize py (remove_char 95 (remove_char 44 samples))) n /\
  PyInt.too_long py
    (PyInt.normalize py (remove_char 95 (remove_char 44 samples))) = false.
Proof.
  unfold PyInt.int. apply from_string_numeral.
  apply normalize_no_underscore. intros F. apply cleaned_In in F. tauto.
Qed.

(** C8, as amended: commas and underscores are removed from the argument
    before it is parsed; the run is started with [n] exactly when what is
    left reads as the integer [n], [n] is positive and its digits are not
    more than the interpreter's limit allows; in every other case (not a
    number, not positive as for "-5", too long) [main] prints the message
    and returns without a run, the exit status being 0. *)
Theorem main_validates_samples (samples : str) (batch : option Z)
    (g : Np.generator) (script : list pause) :
  let cleaned := remove_char 95 (remove_char 44 samples) in
  let text := PyInt.normalize py cleaned in
  (forall c, In c cleaned <-> In c samples /\ c <> 44%N /\ c <> 95%N) /\
  (forall n,
     main py samples batch g script =
       ([], Run n (monte_carlo_pi_animation n batch g script)) <->
     numeral text n /\ 0 < n /\ PyInt.too_long py text = false) /\
  (main py samples batch g script = ([invalid_samples], NoRun) <->
   ~ exists n, numeral text n /\ 0 < n /\ PyInt.too_long py text = false) /\
  main py (of_string "-5") batch g script = ([invalid_samples], NoRun) /\
  exit_code NoRun = Some 0 /\
  invalid_samples = "Invalid number of samples provided."%string.
Proof.
  cbn zeta. split; [apply cleaned_In|].
  split; [|split; [|repeat split]].
  - intros n. unfold main. split.
    + destruct (PyInt.int py (remove_char 95 (remove_char 44 samples)))
        as [m|] eqn:E; [|discriminate].
      destruct (m <=? 0) eqn:Em; [discriminate|].
      intros H. injection H as <- _. apply int_cleaned in E. split; [tauto|].
      split; [lia | tauto].
    + intros (Hn & Hpos & Hlen).
      rewrite (proj2 (int_cleaned samples n) (conj Hn Hlen)).
      destruct (n <=? 0) eqn:Em; [lia | reflexivity].
  - unfold main. split.
    + destruct (PyInt.int py (remove_char 95 (remove_char 44 samples)))
        as [m|] eqn:E.
      * destruct (m <=? 0) eqn:Em; [|discriminate].
        intros _ (n & Hn & Hpos & Hlen).
        rewrite (proj2 (int_cleaned samples n) (conj Hn Hlen)) in E.
        injection E as <-. lia.
      * intros _ (n & Hn & Hpos & Hlen).
        rewrite (proj2 (int_cleaned samples n) (conj Hn Hlen)) in E. discriminate.
    + intros Hnot.
      destruct (PyInt.int py (remove_char 95 (remove_char 44 samples)))
        as [m|] eqn:E; [|reflexivity].
      destruct (m <=? 0) eqn:Em; [reflexivity|].
      exfalso. apply Hnot. exists m. apply int_cleaned in E.
      split; [tauto|]. split; [lia | tauto].
Qed.

End Main.

Lemma main_validates_samples_witness :
  let py := reference_interpreter in
  (numeral (PyInt.normalize py (remove_char 95 (remove_char 44
              (of_string "1_000,000")))) 1000000 /\
   main py (of_string "1_000,000") None halves [] =
   ([], Run 1000000 (monte_carlo_pi_animation 1000000 None halves []))) /\
  (main py [160; 43; 1637; 44; 1632; 8195]%N None halves [] =
   ([], Run 50 (monte_carlo_pi_animation 50 None halves [])) /\
   numeral (PyInt.normalize py (remove_char 95 (remove_char 44
              [160; 43; 1637; 44; 1632; 8195]%N))) 50) /\
  (main py (of_string "abc") None halves [] = ([invalid_samples], NoRun) /\
   ~ exists n,
       numeral (PyInt.normalize py (remove_char 95 (remove_char 44
                  (of_string "abc")))) n /\ 0 < n /\
       PyInt.too_long py (PyInt.normalize py (remove_char 95 (remove_char 44
                  (of_string "abc")))) = false).
Proof.
  cbn zeta.
  assert (N1 : numeral (PyInt.normalize reference_interpreter
                 (remove_char 95 (remove_char 44 (of_string "1_000,000"))))
                 1000000).
  { exists [], [], (of_string "1000000"), [].
    repeat split; try reflexivity; try discriminate. now left. }
  split; [split; [exact N1|]|split].
  - apply (proj2 (proj1 (proj2 (main_validates_samples reference_interpreter
             (of_string "1_000,000") None halves [])) 1000000)).
    split; [exact N1|]. split; [lia | reflexivity].
  - assert (E : main reference_interpreter
                  [160; 43; 1637; 44; 1632; 8195]%N None halves [] =
                ([], Run 50 (monte_carlo_pi_animation 50 None halves [])))
      by reflexivity.
    split; [exact E|].
    apply (proj1 (proj1 (proj2 (main_validates_samples reference_interpreter
             [160; 43; 1637; 44; 1632; 8195]%N None halves [])) 50) E).
  - assert (E : main reference_interpreter (of_string "abc") None halves [] =
                ([invalid_samples], NoRun)) by reflexivity.
    split; [exact E|].
    apply (proj1 (proj1 (proj2 (proj2 (main_validates_samples
             reference_interpreter (of_string "abc") None halves [])))) E).
Defined.

(** An argument of 4301 digits is a positive integer, and yet no run is
    started: with the default limit [int] raises [ValueError] on it. *)
Lemma long_numeral_is_rejected :
  ~ (forall py samples batch g script n,
       numeral (remove_char 95 (remove_char 44 samples)) n -> 0 < n ->
       main py samples batch g script =
       ([], Run n (monte_carlo_pi_animation n batch g script))).
Proof.
  intros H.
  specialize (H reference_interpreter (repeat 49%N 4301) None halves []
                (decimal (repeat 49%N 4301))).
  assert (E : main reference_interpreter (repeat 49%N 4301) None halves [] =
              ([invalid_samples], NoRun)) by (vm_compute; reflexivity).
  rewrite E in H.
  assert (F : ([invalid_samples], NoRun) =
              ([], Run (decimal (repeat 49%N 4301))
                     (monte_carlo_pi_animation (decimal (repeat 49%N 4301))
                        None halves []))).
  { apply H.
    - exists [], [], (repeat 49%N 4301), [].
      split; [vm_compute; reflexivity|].
      split; [reflexivity|]. split; [reflexivity|].
      split.
      { intros F. apply (f_equal (@length N)) in F.
        rewrite repeat_length in F. discriminate F. }
      split; [vm_compute; reflexivity|].
      left. split; reflexivity.
    - vm_compute. reflexivity. }
  discriminate F.
Qed.

(** * Further properties of the loop *)

(** ** Clicks *)

Lemma same_data_refl (st : state) : same_data st st.
Proof. repeat split. Qed.

Lemma same_data_trans (a b c : state) :
  same_data a b -> same_data b c -> same_data a c.
Proof.
  unfold same_data. intros H1 H2.
  repeat match goal with H : _ /\ _ |- _ => destruct H end.
  repeat split; congruence.
Qed.

Lemma click_keeps_data (b : button) (st : state) :
  b <> RESTART -> same_data (on_clicked b st) st.
Proof. destruct b; intros H; try contradiction; repeat split. Qed.

Lemma click_keeps_rng (b : button) (st : state) :
  rng (on_clicked b st) = rng st.
Proof. destruct b; reflexivity. Qed.

Lemma pause_keeps_rng (p : pause) :
  forall st, rng (plt_pause st p) = rng st.
Proof.
  unfold plt_pause. induction (clicks p) as [|b l IH]; intros st; simpl;
    [reflexivity|]. now rewrite IH, click_keeps_rng.
Qed.

Lemma clicks_keep_data_helper (p : pause) (st : state) :
  ~ In RESTART (clicks p) -> same_data (plt_pause st p) st.
Proof.
  revert st. unfold plt_pause.
  induction (clicks p) as [|b l IH]; intros st Hno; simpl.
  - apply same_data_refl.
  - apply same_data_trans with (b := on_clicked b st).
    + apply IH. intros H. apply Hno. now right.
    + apply click_keeps_data. intros ->. apply Hno. now left.
Qed.

(** X1: STOP, RESUME and START change nothing but [running] and which artists
    are visible: after a pause without a RESTART click the statistics, the
    queue, the displayed points, the generator and the contents of the
    figure are what they were, and [running] is what the last click made
    it. *)
Theorem clicks_keep_data (st : state) (p : pause) :
  ~ In RESTART (clicks p) ->
  same_data (plt_pause st p) st /\
  (clicks p = [] -> plt_pause st p = st) /\
  (forall cs b, clicks p = cs ++ [b] ->
     running (plt_pause st p) = wakes b).
Proof.
  intros Hno. split; [|split].
  - now apply clicks_keep_data_helper.
  - unfold plt_pause. intros ->. reflexivity.
  - intros cs b E. unfold plt_pause. rewrite E, fold_left_app. simpl.
    destruct b; reflexivity.
Qed.

Lemma clicks_keep_data_witness :
  let st := final (monte_carlo_pi_animation 500 (Some 200) halves
                     (press_start 2)) in
  let p := mkPause [STOP; RESUME; STOP] true in
  ~ In RESTART (clicks p) /\
  samples_done (plt_pause st p) = 400 /\
  length (point_queue (plt_pause st p)) = length (point_queue st) /\
  running (plt_pause st p) = false.
Proof.
  cbn zeta.
  assert (Hno : ~ In RESTART (clicks (mkPause [STOP; RESUME; STOP] true)))
    by (cbn; intros [H|[H|[H|[]]]]; discriminate).
  destruct (clicks_keep_data
              (final (monte_carlo_pi_animation 500 (Some 200) halves
                        (press_start 2)))
              (mkPause [STOP; RESUME; STOP] true) Hno) as (Hd & _ & Hr).
  destruct Hd as (Hdone & _ & Hq & _).
  split; [exact Hno|].
  split; [rewrite Hdone; vm_compute; reflexivity|].
  split; [now rewrite Hq|].
  apply (Hr [STOP; RESUME] STOP). reflexivity.
Defined.

(** ** A loop that is not running *)

Lemma sleepy_pause (p : pause) :
  sleepy p ->
  forall st, running st = false -> running (plt_pause st p) = false.
Proof.
  unfold sleepy, plt_pause.
  induction (clicks p) as [|b l IH]; intros Hs st Hrun; simpl;
    [assumption|].
  inversion Hs; subst. apply IH; [assumption|].
  destruct b; try discriminate; reflexivity.
Qed.

(** X2: while [running[0]] is [False] and no START or RESUME click arrives, the
    passes of the loop are waits: nothing is sampled or drawn, the generator
    is not used, the loop can only end by the window being closed, and
    without a RESTART click the data are untouched. *)
Theorem paused_loop_idles (num_samples batch_size : Z)
    (script : list pause) :
  forall st,
    running st = false -> Forall sleepy script ->
    let o := loop num_samples batch_size script st in
    trace o = [] /\ running (final o) = false /\ rng (final o) = rng st /\
    (exited o = None /\ unread o = [] \/ exited o = Some WindowClosed) /\
    (no_restart script -> same_data (final o) st).
Proof.
  induction script as [|p script IH]; intros st Hrun Hs; cbn zeta;
    simpl loop; rewrite Hrun; cbn [negb].
  - cbn [trace final exited unread].
    split; [reflexivity|]. split; [exact Hrun|]. split; [reflexivity|].
    split; [left; split; reflexivity|]. intros _. apply same_data_refl.
  - inversion Hs as [|? ? Hp Hrest]; subst.
    pose proof (sleepy_pause p Hp st Hrun) as Hrun'.
    destruct (fignum_exists p); cbn [negb].
    + destruct (IH (plt_pause st p) Hrun' Hrest) as (Ht & Hr & Hg & He & Hd).
      split; [exact Ht|]. split; [exact Hr|].
      split; [now rewrite Hg, pause_keeps_rng|].
      split; [exact He|].
      intros Hno. inversion Hno; subst.
      apply same_data_trans with (b := plt_pause st p); [now apply Hd|].
      now apply clicks_keep_data_helper.
    + cbn [trace final exited unread].
      split; [reflexivity|]. split; [exact Hrun'|].
      split; [apply pause_keeps_rng|]. split; [now right|].
      intros Hno. inversion Hno; subst. now apply clicks_keep_data_helper.
Qed.

Lemma paused_loop_idles_witness :
  let st := stop (final (monte_carlo_pi_animation 500 (Some 200) halves
                           (press_start 2))) in
  let script := [mkPause [STOP] true; idle; mkPause [STOP; STOP] false;
                 idle] in
  running st = false /\ Forall sleepy script /\ no_restart script /\
  trace (loop 500 200 script st) = [] /\
  samples_done (final (loop 500 200 script st)) = 400.
Proof.
  cbn zeta.
  set (st := stop (final (monte_carlo_pi_animation 500 (Some 200) halves
                            (press_start 2)))).
  set (script := [mkPause [STOP] true; idle; mkPause [STOP; STOP] false;
                  idle]).
  assert (Hs : Forall sleepy script)
    by (unfold script, sleepy; repeat constructor).
  assert (Hno : no_restart script).
  { unfold script, no_restart. repeat constructor; cbn;
      intuition discriminate. }
  destruct (paused_loop_idles 500 200 script st eq_refl Hs)
    as (Ht & _ & _ & _ & Hd).
  split; [reflexivity|]. split; [exact Hs|]. split; [exact Hno|].
  split; [exact Ht|].
  destruct (Hd Hno) as (Hdone & _). rewrite Hdone.
  vm_compute. reflexivity.
Defined.

(** ** Leaving the loop *)

(** X3: the pauses a run has consumed are a prefix of the script, all of them
    with the figure still there except, when the loop ends because the
    window was closed, the last one; so a run whose pauses all report the
    figure never ends that way, and the first pause that finds the figure
    gone ends the loop with the rest of the script unread. *)
Theorem window_closed_exit (num_samples batch_size : Z)
    (script : list pause) (st : state) :
  let o := loop num_samples batch_size script st in
  (exists used, script = used ++ unread o /\
     match exited o with
     | Some WindowClosed =>
         exists before p, used = before ++ [p] /\
           fignum_exists p = false /\ forallb fignum_exists before = true
     | _ => forallb fignum_exists used = true
     end) /\
  (forallb fignum_exists script = true -> exited o <> Some WindowClosed).
Proof.
  cbn zeta.
  assert (Main : exists used,
     script = used ++ unread (loop num_samples batch_size script st) /\
     match exited (loop num_samples batch_size script st) with
     | Some WindowClosed =>
         exists before p, used = before ++ [p] /\
           fignum_exists p = false /\ forallb fignum_exists before = true
     | _ => forallb fignum_exists used = true
     end).
  { revert script st.
    apply (loop_passes num_samples batch_size (fun s st o =>
      exists used, s = used ++ unread o /\
        match exited o with
        | Some WindowClosed =>
            exists before p, used = before ++ [p] /\
              fignum_exists p = false /\ forallb fignum_exists before = true
        | _ => forallb fignum_exists used = true
        end)); cbn [exited unread emit]; intros.
    - exists []. split; reflexivity.
    - exists [p]. split; [reflexivity|]. exists [], p. repeat split.
      assumption.
    - destruct H1 as (used & Hs & Hm). exists (p :: used).
      split; [now rewrite Hs at 1|].
      destruct (exited (loop num_samples batch_size s (plt_pause st p)))
        as [[]|]; cbn [forallb]; try (now rewrite H0, Hm).
      destruct Hm as (before & q & -> & Hq & Hb).
      exists (p :: before), q. cbn [forallb]. rewrite H0, Hb.
      repeat split. assumption.
    - exists []. split; reflexivity.
    - exists []. split; reflexivity.
    - exists []. split; reflexivity.
    - exists [p]. split; [reflexivity|]. exists [], p. repeat split.
      assumption.
    - destruct H3 as (used & Hs & Hm). exists (p :: used).
      split; [now rewrite Hs at 1|].
      destruct (exited (loop num_samples batch_size s (plt_pause st1 p)))
        as [[]|]; cbn [forallb]; try (now rewrite H2, Hm).
      destruct Hm as (before & q & -> & Hq & Hb).
      exists (p :: before), q. cbn [forallb]. rewrite H2, Hb.
      repeat split. assumption. }
  split; [exact Main|].
  intros Hopen Hexit. destruct Main as (used & Hs & Hm).
  rewrite Hexit in Hm. destruct Hm as (before & p & -> & Hp & _).
  rewrite Hs, <- !app_assoc, !forallb_app in Hopen. cbn in Hopen.
  rewrite Hp in Hopen. cbn in Hopen.
  rewrite andb_false_r in Hopen. discriminate.
Qed.

Lemma window_closed_exit_witness :
  let script := [mkPause [START] true; idle; mkPause [RESTART] false;
                 mkPause [START] true] in
  let o := monte_carlo_pi_animation 500 (Some 200) halves script in
  exited o = Some WindowClosed /\ unread o = [mkPause [START] true] /\
  (forallb fignum_exists (press_start 5) = true /\
   exited (monte_carlo_pi_animation 500 (Some 200) halves (press_start 5))
     <> Some WindowClosed).
Proof.
  cbn zeta.
  split; [vm_compute; reflexivity|]. split; [vm_compute; reflexivity|].
  split; [reflexivity|].
  rewrite monte_carlo_pi_animation_loop.
  apply (proj2 (window_closed_exit 500 200 (press_start 5) (initial halves))).
  reflexivity.
Defined.

(** ** Batch sizes that are not positive *)

Lemma loop_never_raises (num_samples batch_size : Z) :
  0 <= batch_size ->
  forall script st,
    exited (loop num_samples batch_size script st) <> Some ValueError.
Proof.
  intros Hb.
  apply (loop_passes num_samples batch_size (fun s st o =>
    exited o <> Some ValueError)); cbn [exited emit]; intros;
    try discriminate; try assumption.
  apply tick_None in H1. lia.
Qed.

(** X4: with a batch size from 0 to under 2^60 no run raises the
    [ValueError] of [np.random.uniform]: past the exhaustion check the
    number of samples still to draw is positive, so every size passed to it
    is between 0 and the batch size. *)
Theorem nonnegative_batch_never_raises (num_samples batch_size : Z)
    (script : list pause) (st : state) :
  0 <= batch_size < 2 ^ 60 ->
  let o := loop num_samples batch_size script st in
  exited o <> Some ValueError /\
  Forall (fun bd => 0 <= fst bd <= batch_size /\ fst bd < 2 ^ 60)
         (batches (trace o)).
Proof.
  intros Hb. cbn zeta.
  split; [apply loop_never_raises; lia|].
  rewrite <- Forall_batches.
  apply (loop_invariant num_samples batch_size (fun _ => True)
           (fun e => Forall (fun bd => 0 <= fst bd <= batch_size /\
                                       fst bd < 2 ^ 60) (batches [e])));
    [trivial | | exact I].
  intros s s1 evs _ _ Hlt Htick. split; [exact I|].
  apply tick_statistics in Htick.
  destruct Htick as (B & c & Hc & Hcase & _).
  apply Forall_batches.
  destruct Hcase as [(_ & HB & ->) | (_ & _ & ->)]; [|constructor].
  constructor; [|constructor]. cbn [fst]. lia.
Qed.

Lemma nonnegative_batch_never_raises_witness :
  let o := loop 500 200 (press_start 5) (initial halves) in
  0 <= 200 < 2 ^ 60 /\ exited o = Some Exhausted /\
  exited o <> Some ValueError /\
  Forall (fun bd => 0 <= fst bd <= 200 /\ fst bd < 2 ^ 60)
         (batches (trace o)).
Proof.
  cbn zeta.
  assert (Hb : 0 <= 200 < 2 ^ 60) by lia.
  destruct (nonnegative_batch_never_raises 500 200 (press_start 5)
              (initial halves) Hb) as [H1 H2].
  split; [exact Hb|]. split; [vm_compute; reflexivity|].
  split; [exact H1 | exact H2].
Defined.

Lemma clicks_on_fresh (cs : list button) :
  forall st,
    samples_done st = 0 /\ point_queue st = [] ->
    samples_done (fold_left (fun s b => on_clicked b s) cs st) = 0 /\
    point_queue (fold_left (fun s b => on_clicked b s) cs st) = [].
Proof.
  induction cs as [|b cs IH]; intros st H; simpl; [assumption|].
  apply IH. destruct b; cbn; tauto.
Qed.

(** X5: with a negative batch size the first pass that gets to sample raises
    [ValueError] before anything is assigned, so no run ever samples or
    draws anything, none ends by exhaustion, and a run in which START is
    clicked ends at once, the process with status 1. *)
Theorem negative_batch_raises (num_samples batch_size : Z) :
  batch_size < 0 ->
  (forall st script,
     running st = true -> samples_done st < num_samples ->
     point_queue st = [] ->
     loop num_samples batch_size script st =
     mkOutcome [] st (Some ValueError) script) /\
  (forall g script,
     let o := loop num_samples batch_size script (initial g) in
     trace o = [] /\ samples_done (final o) = 0 /\
     (0 < num_samples -> exited o <> Some Exhausted)) /\
  (forall g cs rest,
     0 < num_samples ->
     let o := monte_carlo_pi_animation num_samples (Some batch_size) g
                (mkPause (cs ++ [START]) true :: rest) in
     exited o = Some ValueError /\ unread o = rest /\ trace o = [] /\
     exit_code (Run num_samples o) = Some 1).
Proof.
  intros Hb.
  assert (Crash : forall st script,
     running st = true -> samples_done st < num_samples ->
     point_queue st = [] ->
     loop num_samples batch_size script st =
     mkOutcome [] st (Some ValueError) script).
  { intros st script Hrun Hlt Hq.
    assert (Ht : tick num_samples batch_size st = None)
      by (apply tick_None; split; [assumption | lia]).
    destruct script; simpl loop; rewrite Hrun; cbn [negb];
      (destruct (samples_done st >=? num_samples) eqn:E; [lia|]);
      rewrite Ht; reflexivity. }
  split; [exact Crash|]. split.
  - intros g script o.
    destruct (loop_invariant num_samples batch_size
      (fun st => samples_done st = 0 /\ point_queue st = [])
      (fun _ => False)) with (script := script) (st := initial g)
      as [[Hd Hq] Htr].
    + intros st [] H; cbn; tauto.
    + intros st st1 evs [Hd Hq] Hrun Hlt Ht. exfalso.
      assert (Hn : tick num_samples batch_size st = None)
        by (apply tick_None; split; [assumption | lia]).
      congruence.
    + split; reflexivity.
    + fold o in Hd, Htr.
      split; [destruct (trace o) as [|e tr]; [reflexivity | now inversion Htr]|].
      split; [exact Hd|].
      intros Hpos Hexit. apply exhausted_reached in Hexit.
      fold o in Hexit. lia.
  - intros g cs rest Hpos o. subst o.
    rewrite monte_carlo_pi_animation_loop.
    cbn [effective_batch_size].
    simpl loop. cbn [negb].
    unfold plt_pause. cbn [clicks]. rewrite fold_left_app. cbn [fold_left].
    destruct (clicks_on_fresh cs (initial g) (conj eq_refl eq_refl))
      as [Hd Hq].
    set (st0 := fold_left (fun s b => on_clicked b s) cs (initial g)) in *.
    rewrite (Crash (on_clicked START st0) rest); cbn; try assumption;
      try lia; try reflexivity.
    repeat split.
Qed.

Lemma negative_batch_raises_witness :
  -1 < 0 /\ 0 < 5 /\
  exited (monte_carlo_pi_animation 5 (Some (-1)) halves (press_start 3))
    = Some ValueError /\
  unread (monte_carlo_pi_animation 5 (Some (-1)) halves (press_start 3))
    = repeat idle 3 /\
  trace (loop 5 (-1) [idle; mkPause [RESUME] true; idle] (initial halves))
    = [].
Proof.
  destruct (negative_batch_raises 5 (-1) ltac:(lia)) as (_ & Hrun & Hstart).
  destruct (Hstart halves [] (repeat idle 3) ltac:(lia)) as (He & Hu & _).
  split; [lia|]. split; [lia|]. split; [exact He|]. split; [exact Hu|].
  apply Hrun.
Defined.

(** X6: with a batch size of 0 every pass draws an empty batch: a run for a
    positive number of samples never ends by exhaustion and never raises,
    its statistics stay at 0 and nothing is ever queued or displayed. *)
Theorem zero_batch_never_finishes (num_samples : Z) (g : Np.generator)
    (script : list pause) :
  0 < num_samples ->
  let o := monte_carlo_pi_animation num_samples (Some 0) g script in
  exited o <> Some Exhausted /\ exited o <> Some ValueError /\
  samples_done (final o) = 0 /\ inside_total (final o) = 0 /\
  point_queue (final o) = [] /\ disp_x (final o) = [] /\
  Forall (fun e => event_stats e = (0, 0)) (trace o).
Proof.
  intros Hpos o. subst o. rewrite monte_carlo_pi_animation_loop.
  cbn [effective_batch_size].
  destruct (loop_invariant num_samples 0
    (fun st => samples_done st = 0 /\ inside_total st = 0 /\
               point_queue st = [] /\ disp_x st = [])
    (fun e => event_stats e = (0, 0))) with (script := script)
    (st := initial g) as [(Hd & Hi & Hq & Hx) Htr].
  - intros st [] H; cbn; tauto.
  - intros st st1 evs (Hd & Hi & Hq & Hx) Hrun Hlt Ht.
    pose proof (tick_queue_length _ _ _ _ _ Ht) as Hlen.
    cbn zeta in Hlen. rewrite Hq, Hd in Hlen.
    replace (Z.min 0 (num_samples - 0)) with 0 in Hlen by lia.
    change (Z.to_nat (ceil_div 0 (Z.max 1 (0 / 200)))) with 0%nat in Hlen.
    pose proof Ht as Hs. apply tick_statistics in Hs.
    destruct Hs as (B & c & Hc & Hcase & Hi1 & Hd1 & _ & Hevs).
    assert (B = 0).
    { destruct Hcase as [(_ & -> & _) | (Hne & _)]; [lia | contradiction]. }
    subst B. assert (c = 0) by lia. subst c.
    assert (Hx1 : disp_x st1 = []).
    { apply tick_Some in Ht.
      destruct Ht as (s1 & sampled & -> & _ & Hcs).
      destruct Hcs as [(_ & B & Hsm & _) | (Hne & _)]; [|contradiction].
      apply sample_Some in Hsm.
      destruct Hsm as (HB & _ & _ & _ & Hq1 & _ & Hx1 & _).
      destruct (drain_spec s1) as (_ & Hdx & _).
      cbn [render disp_x]. rewrite Hdx, Hx1, Hx, Hq1, Hq.
      rewrite HB, Hd. replace (Z.min 0 (num_samples - 0)) with 0 by lia.
      reflexivity. }
    split.
    + split; [lia|]. split; [lia|].
      split; [now apply length_zero_iff_nil|]. exact Hx1.
    + eapply Forall_impl; [|exact Hevs].
      intros e He. rewrite He, Hi1, Hd1, Hi, Hd. reflexivity.
  - repeat split.
  - split.
    + intros Hexit. apply exhausted_reached in Hexit. lia.
    + split.
      * apply loop_never_raises. lia.
      * repeat split; assumption.
Qed.

Lemma zero_batch_never_finishes_witness :
  0 < 5 /\
  exited (monte_carlo_pi_animation 5 (Some 0) halves (press_start 3))
    = None /\
  samples_done (final (monte_carlo_pi_animation 5 (Some 0) halves
                         (press_start 3))) = 0.
Proof.
  destruct (zero_batch_never_finishes 5 halves (press_start 3) ltac:(lia))
    as (_ & _ & Hd & _).
  split; [lia|]. split; [vm_compute; reflexivity | exact Hd].
Defined.

(** ** The displayed points *)

Lemma combine_app_eq {A B : Type} (a : list A) :
  forall (b : list B) a' b',
    length a = length b ->
    combine (a ++ a') (b ++ b') = combine a b ++ combine a' b'.
Proof.
  induction a as [|x a IH]; intros [|y b] a' b' H; simpl in *;
    try discriminate; [reflexivity|].
  f_equal. apply IH. now injection H.
Qed.

Lemma combine_projections (l : list point) :
  combine (combine (map (fun p => fst (fst p)) l)
                   (map (fun p => snd (fst p)) l)) (map snd l) = l.
Proof.
  induction l as [|[[x y] c] l IH]; simpl; [reflexivity|]. now rewrite IH.
Qed.

(** What [drain] does to the displayed points: the first 100 points of the
    queue at most are appended to them, in order. *)
Lemma displayed_drain (st : state) :
  aligned st ->
  let n := Nat.min 100 (length (point_queue st)) in
  displayed (drain st) = displayed st ++ firstn n (point_queue st) /\
  point_queue (drain st) = skipn n (point_queue st) /\
  aligned (drain st).
Proof.
  intros [H1 H2]. cbn zeta.
  destruct (drain_spec st) as (Hq & Hx & Hy & Hc & _).
  unfold displayed, aligned. rewrite Hx, Hy, Hc, Hq.
  split; [|split; [reflexivity|]].
  - rewrite (combine_app_eq (disp_x st)) by assumption.
    rewrite combine_app_eq by (rewrite length_combine; lia).
    now rewrite combine_projections.
  - rewrite !length_app, !length_map. lia.
Qed.

Lemma click_aligned (b : button) (st : state) :
  aligned st -> aligned (on_clicked b st).
Proof. destruct b; intros H; try exact H; split; reflexivity. Qed.

(** X7: the figure shows the displayed points: at the end of every run the
    three display lists have the same length, and the scatter plot holds
    exactly their coordinates and colours. *)
Theorem figure_shows_displayed (num_samples : Z) (batch_size : option Z)
    (g : Np.generator) (script : list pause) :
  let st := final (monte_carlo_pi_animation num_samples batch_size g script) in
  aligned st /\
  scatter_offsets (fig st) = combine (disp_x st) (disp_y st) /\
  scatter_colors (fig st) = disp_colors st /\
  length (scatter_offsets (fig st)) = length (scatter_colors (fig st)).
Proof.
  cbn zeta. rewrite monte_carlo_pi_animation_loop.
  destruct (loop_invariant num_samples
    (effective_batch_size num_samples batch_size)
    (fun st => aligned st /\
               scatter_offsets (fig st) = combine (disp_x st) (disp_y st) /\
               scatter_colors (fig st) = disp_colors st)
    (fun _ => True)) with (script := script) (st := initial g)
    as [(Ha & Ho & Hc) _].
  - intros st b (Ha & Ho & Hc).
    split; [now apply click_aligned|]. destruct b; cbn; tauto.
  - intros st st1 evs (Ha & _) _ _ Ht. split.
    + apply tick_Some in Ht. destruct Ht as (s1 & sampled & -> & _ & Hcase).
      assert (Ha1 : aligned s1).
      { destruct Hcase as [(_ & B & Hs & _) | (_ & -> & _)]; [|exact Ha].
        apply sample_Some in Hs.
        destruct Hs as (_ & _ & _ & _ & _ & _ & Hx & Hy & Hc & _).
        unfold aligned. now rewrite Hx, Hy, Hc. }
      destruct (displayed_drain s1 Ha1) as (_ & _ & Had).
      split; [exact Had|]. split; reflexivity.
    + apply Forall_forall. intros; exact I.
  - repeat split.
  - split; [exact Ha|]. split; [exact Ho|]. split; [exact Hc|].
    rewrite Ho, Hc, length_combine. destruct Ha as [H1 H2]. lia.
Qed.

(** ** Colours *)

Lemma inside_nth (x : list float) :
  forall y i,
    length x = length y -> (i < length x)%nat ->
    nth i (Np.le_one (Np.sq_add x y)) false =
    PrimFloat.leb (nth i x 0 * nth i x 0 + nth i y 0 * nth i y 0)%float 1.
Proof.
  induction x as [|a x IH]; intros [|b y] i Hlen Hi; simpl in *;
    try discriminate; [lia|].
  destruct i as [|i]; [reflexivity|].
  apply IH; [now injection Hlen | lia].
Qed.

Lemma batch_point_coloured (st : state) (B : Z) (i : nat) :
  (i < Z.to_nat B)%nat -> well_coloured (batch_point st B i).
Proof.
  intros Hi. unfold well_coloured, batch_point, batch_inside.
  rewrite inside_nth; [reflexivity | |].
  - now rewrite batch_x_length, batch_y_length.
  - now rewrite batch_x_length.
Qed.

Lemma range_below (stop step : Z) :
  0 < step ->
  Forall (fun i => 0 <= i < stop) (range 0 stop step).
Proof.
  intros Hstep. rewrite range_indices by assumption.
  apply Forall_forall. intros i Hi. apply in_map_iff in Hi.
  destruct Hi as (k & <- & Hk). apply in_seq in Hk.
  pose proof (ceil_div_spec stop step Hstep). nia.
Qed.

(** X8: every point is given the colour of its side of the circle: in every
    run, each point in the queue and each displayed point is blue exactly
    when [x*x + y*y <= 1] in binary64 arithmetic, red otherwise. *)
Theorem points_well_coloured (num_samples : Z) (batch_size : option Z)
    (g : Np.generator) (script : list pause) :
  let st := final (monte_carlo_pi_animation num_samples batch_size g script) in
  Forall well_coloured (point_queue st) /\
  Forall well_coloured (displayed st).
Proof.
  cbn zeta. rewrite monte_carlo_pi_animation_loop.
  destruct (loop_invariant num_samples
    (effective_batch_size num_samples batch_size)
    (fun st => aligned st /\ Forall well_coloured (point_queue st) /\
               Forall well_coloured (displayed st))
    (fun _ => True)) with (script := script) (st := initial g)
    as [(_ & Hq & Hd) _].
  - intros st b (Ha & Hq & Hd).
    split; [now apply click_aligned|].
    destruct b; cbn; try tauto. split; constructor.
  - intros st st1 evs (Ha & Hq & Hd) _ _ Ht. split.
    + apply tick_Some in Ht. destruct Ht as (s1 & sampled & -> & _ & Hcase).
      assert (H1 : aligned s1 /\ Forall well_coloured (point_queue s1) /\
                   Forall well_coloured (displayed s1)).
      { destruct Hcase as [(_ & B & Hs & _) | (_ & -> & _)]; [|tauto].
        apply sample_Some in Hs.
        destruct Hs as (_ & HB & _ & _ & Hq1 & _ & Hx & Hy & Hc & _).
        unfold aligned, displayed. rewrite Hx, Hy, Hc, Hq1.
        split; [exact Ha|]. split; [|exact Hd].
        apply Forall_app. split; [exact Hq|].
        apply Forall_forall. intros p Hp. apply in_map_iff in Hp.
        destruct Hp as (i & <- & Hi).
        pose proof (range_below B (Z.max 1 (B / 200)) ltac:(lia)) as Hr.
        rewrite Forall_forall in Hr. specialize (Hr i Hi).
        apply batch_point_coloured. lia. }
      destruct H1 as (Ha1 & Hq1 & Hd1).
      destruct (displayed_drain s1 Ha1) as (Hdd & Hqd & Had).
      cbn zeta in Hdd, Hqd.
      change (point_queue (render num_samples (drain s1)))
        with (point_queue (drain s1)).
      change (displayed (render num_samples (drain s1)))
        with (displayed (drain s1)).
      split; [exact Had|]. rewrite Hdd, Hqd. split.
      * rewrite <- (firstn_skipn (Nat.min 100 (length (point_queue s1)))
                      (point_queue s1)) in Hq1.
        apply Forall_app in Hq1. tauto.
      * apply Forall_app. split; [exact Hd1|].
        rewrite <- (firstn_skipn (Nat.min 100 (length (point_queue s1)))
                      (point_queue s1)) in Hq1.
        apply Forall_app in Hq1. tauto.
    + apply Forall_forall. intros; exact I.
  - split; [split; reflexivity|]. split; constructor.
  - split; assumption.
Qed.

(** ** Order of display *)

Lemma continues_refl (st : state) : continues st st.
Proof.
  split; [exists []; now rewrite app_nil_r|].
  split; [exists []; now rewrite app_nil_r|]. lia.
Qed.

Lemma continues_trans (a b c : state) :
  continues a b -> continues b c -> continues a c.
Proof.
  intros ((s1 & H1) & (a1 & G1) & L1) ((s2 & H2) & (a2 & G2) & L2).
  split; [exists (s1 ++ s2); now rewrite H2, H1, app_assoc|].
  split; [|lia].
  exists (a1 ++ a2). rewrite G2.
  rewrite (app_assoc (displayed b)), G1, <- !app_assoc. reflexivity.
Qed.

Lemma pause_continues (p : pause) (st : state) :
  ~ In RESTART (clicks p) -> aligned st ->
  continues st (plt_pause st p) /\ aligned (plt_pause st p).
Proof.
  intros Hno Ha.
  destruct (clicks_keep_data_helper p st Hno)
    as (Hd & Hi & Hq & Hx & Hy & Hc & _).
  unfold continues, displayed, aligned. rewrite Hd, Hi, Hq, Hx, Hy, Hc.
  split; [apply continues_refl | exact Ha].
Qed.

Lemma tick_continues (num_samples batch_size : Z) (st st1 : state)
    (evs : list event) :
  aligned st -> tick num_samples batch_size st = Some (st1, evs) ->
  continues st st1 /\ aligned st1.
Proof.
  intros Ha Ht. pose proof Ht as Hs. apply tick_statistics in Hs.
  destruct Hs as (B & c & Hc & _ & Hi & Hd & _).
  apply tick_Some in Ht. destruct Ht as (s1 & sampled & -> & _ & Hcase).
  assert (H1 : aligned s1 /\ displayed s1 = displayed st /\
               exists added, point_queue s1 = point_queue st ++ added).
  { destruct Hcase as [(_ & B' & Hsm & _) | (_ & -> & _)].
    - apply sample_Some in Hsm.
      destruct Hsm as (_ & _ & _ & _ & Hq1 & _ & Hx & Hy & Hcl & _).
      unfold aligned, displayed. rewrite Hx, Hy, Hcl.
      split; [exact Ha|]. split; [reflexivity|]. eexists. exact Hq1.
    - split; [exact Ha|]. split; [reflexivity|].
      exists []. now rewrite app_nil_r. }
  destruct H1 as (Ha1 & Hd1 & added & Hq1).
  destruct (displayed_drain s1 Ha1) as (Hdd & Hqd & Had). cbn zeta in *.
  split; [|exact Had].
  unfold continues.
  change (point_queue (render num_samples (drain s1)))
    with (point_queue (drain s1)).
  change (displayed (render num_samples (drain s1)))
    with (displayed (drain s1)).
  rewrite Hdd, Hqd, Hd1.
  split; [eexists; reflexivity|]. split.
  - exists added. rewrite <- app_assoc, firstn_skipn, Hq1. reflexivity.
  - cbn [render samples_done inside_total] in *. lia.
Qed.

(** X9: between two restarts the display only grows, and in the order of the
    queue: at the end of a run without a RESTART click the displayed points
    are those of the start followed by newer ones, the points displayed or
    queued are those of the start followed by the newly queued ones (none
    dropped, none reordered), and the statistics have not decreased. *)
Theorem display_grows_in_order (num_samples batch_size : Z)
    (script : list pause) (st : state) :
  aligned st -> no_restart script ->
  continues st (final (loop num_samples batch_size script st)) /\
  aligned (final (loop num_samples batch_size script st)).
Proof.
  revert script st.
  apply (loop_passes num_samples batch_size (fun s st o =>
    aligned st -> no_restart s -> continues st (final o) /\ aligned (final o)));
    cbn [final emit]; intros.
  - split; [apply continues_refl | assumption].
  - inversion H2; subst. now apply pause_continues.
  - inversion H3; subst.
    destruct (pause_continues p st H6 H2) as [Hc Ha].
    destruct (H1 Ha H7) as [Hc' Ha'].
    split; [eapply continues_trans; eassumption | assumption].
  - split; [|exact H1]. split; [exists []; now rewrite app_nil_r|].
    split; [exists []; now rewrite app_nil_r|]. cbn. lia.
  - split; [apply continues_refl | assumption].
  - now apply (tick_continues num_samples batch_size st st1 evs).
  - inversion H4; subst.
    destruct (tick_continues num_samples batch_size st st1 evs H3 H1)
      as [Hc Ha].
    destruct (pause_continues p st1 H7 Ha) as [Hc' Ha'].
    split; [eapply continues_trans; eassumption | assumption].
  - inversion H5; subst.
    destruct (tick_continues num_samples batch_size st st1 evs H4 H1)
      as [Hc Ha].
    destruct (pause_continues p st1 H8 Ha) as [Hc' Ha'].
    destruct (H3 Ha' H9) as [Hc'' Ha''].
    split; [|assumption].
    eapply continues_trans; [exact Hc|].
    eapply continues_trans; eassumption.
Qed.

Lemma display_grows_in_order_witness :
  let st := final (monte_carlo_pi_animation 500 (Some 200) halves
                     (press_start 1)) in
  let script := [mkPause [RESUME] true; mkPause [STOP] true; idle] in
  aligned st /\ no_restart script /\
  length (displayed st) = 200%nat /\
  length (displayed (final (loop 500 200 script st))) = 400%nat /\
  continues st (final (loop 500 200 script st)).
Proof.
  cbn zeta.
  set (st := final (monte_carlo_pi_animation 500 (Some 200) halves
                      (press_start 1))).
  set (script := [mkPause [RESUME] true; mkPause [STOP] true; idle]).
  assert (Ha : aligned st) by (split; vm_compute; reflexivity).
  assert (Hno : no_restart script).
  { unfold script, no_restart. repeat constructor; cbn;
      intuition discriminate. }
  split; [exact Ha|]. split; [exact Hno|].
  split; [vm_compute; reflexivity|]. split; [vm_compute; reflexivity|].
  apply (display_grows_in_order 500 200 script st Ha Hno).
Defined.

(** ** How many points a batch queues *)

(** X10: the subsample of a batch of [B] points is the whole batch when
    [B < 200] and between 200 and 399 points otherwise, so the queue never
    grows by more than 399 points at a time. *)
Theorem subsample_cap (num_samples batch_size : Z) (st st' : state) (B : Z) :
  sample num_samples batch_size st = Some (st', B) ->
  let n := (length (point_queue st') - length (point_queue st))%nat in
  (length (point_queue st) <= length (point_queue st'))%nat /\
  (n <= 399)%nat /\
  (B < 200 -> Z.of_nat n = B) /\
  (200 <= B -> (200 <= n)%nat).
Proof.
  intros Hs. apply sample_Some in Hs.
  destruct Hs as (_ & HB & _ & _ & Hq & _).
  cbn zeta. rewrite Hq, length_app, length_map.
  rewrite range_indices by lia. rewrite length_map, length_seq.
  pose proof (subsample_count_bound B HB) as Hcap.
  assert (Hstep : 0 < Z.max 1 (B / 200)) by lia.
  pose proof (ceil_div_spec B (Z.max 1 (B / 200)) Hstep) as Hc.
  split; [lia|]. split; [lia|]. split.
  - intros Hlt. rewrite Z.div_small in * by lia.
    change (Z.max 1 0) with 1 in *. lia.
  - intros Hge.
    pose proof (Z.div_mod B 200 ltac:(lia)) as E.
    pose proof (Z.mod_pos_bound B 200 ltac:(lia)) as M.
    assert (1 <= B / 200) by (apply Z.div_le_lower_bound; lia).
    replace (Z.max 1 (B / 200)) with (B / 200) in * by lia.
    assert (200 <= ceil_div B (B / 200)) by nia.
    lia.
Qed.

Lemma subsample_cap_witness :
  match sample 1000 399 (initial halves) with
  | Some (st', B) =>
      B = 399 /\ (200 <= length (point_queue st') <= 399)%nat
  | None => False
  end /\
  match sample 1000 150 (initial halves) with
  | Some (st', B) => B = 150 /\ length (point_queue st') = 150%nat
  | None => False
  end.
Proof.
  split.
  - destruct (sample 1000 399 (initial halves)) as [[st' B]|] eqn:E;
      [|vm_compute in E; discriminate].
    assert (HB : B = 399) by (vm_compute in E; congruence). subst B.
    destruct (subsample_cap 1000 399 _ st' 399 E) as (_ & Hcap & _ & Hge).
    specialize (Hge ltac:(lia)). cbn [initial point_queue length] in *.
    split; [reflexivity | lia].
  - destruct (sample 1000 150 (initial halves)) as [[st' B]|] eqn:E;
      [|vm_compute in E; discriminate].
    assert (HB : B = 150) by (vm_compute in E; congruence). subst B.
    destruct (subsample_cap 1000 150 _ st' 150 E) as (_ & _ & Hlt & _).
    specialize (Hlt ltac:(lia)). cbn [initial point_queue length] in *.
    split; [reflexivity | lia].
Defined.

(** ** How many batches a run takes *)

Lemma ceil_div_nonneg (a b : Z) : 0 < b -> 0 <= a -> 0 <= ceil_div a b.
Proof. intros Hb Ha. pose proof (ceil_div_spec a b Hb). nia. Qed.

Lemma ceil_div_one (a b : Z) : 0 < a <= b -> ceil_div a b = 1.
Proof.
  intros H. pose proof (ceil_div_spec a b ltac:(lia)). nia.
Qed.

Lemma schedule_shape (num_samples batch_size : Z) (fuel : nat) :
  1 <= batch_size ->
  forall done,
    num_samples - done <= Z.of_nat fuel ->
    let l := schedule num_samples batch_size fuel done in
    length l = Z.to_nat (ceil_div (num_samples - done) batch_size) /\
    Forall (fun bd => 1 <= fst bd <= batch_size) l /\
    Forall (fun bd => fst bd = batch_size) (removelast l).
Proof.
  intros Hb. induction fuel as [|fuel IH]; intros done Hf; cbn zeta.
  - simpl schedule.
    pose proof (ceil_div_nonpos (num_samples - done) batch_size
                  ltac:(lia) ltac:(lia)).
    replace (Z.to_nat (ceil_div (num_samples - done) batch_size))
      with 0%nat by lia.
    repeat split; constructor.
  - simpl schedule. destruct (done >=? num_samples) eqn:E.
    + pose proof (ceil_div_nonpos (num_samples - done) batch_size
                    ltac:(lia) ltac:(lia)).
      replace (Z.to_nat (ceil_div (num_samples - done) batch_size))
        with 0%nat by lia.
      repeat split; constructor.
    + set (B := Z.min batch_size (num_samples - done)).
      destruct (IH (done + B)) as (Hl & Hall & Hlast); [unfold B; lia|].
      cbn zeta in Hl, Hall, Hlast.
      destruct (Z_le_gt_dec batch_size (num_samples - done)) as [Hle|Hgt].
      * assert (HB : B = batch_size) by (unfold B; lia).
        split; [|split].
        -- cbn [length]. rewrite Hl.
           rewrite (ceil_div_step (num_samples - done) batch_size)
             by lia.
           replace (num_samples - (done + B))
             with (num_samples - done - batch_size) by lia.
           pose proof (ceil_div_nonneg (num_samples - done - batch_size)
                         batch_size ltac:(lia) ltac:(lia)).
           lia.
        -- constructor; [cbn; lia | exact Hall].
        -- cbn [removelast].
           destruct (schedule num_samples batch_size fuel (done + B));
             [constructor|].
           constructor; [exact HB | exact Hlast].
      * assert (HB : B = num_samples - done) by (unfold B; lia).
        rewrite (schedule_exhausted num_samples batch_size fuel (done + B))
          by lia.
        rewrite ceil_div_one by lia.
        split; [reflexivity|]. split; [|constructor].
        constructor; [cbn; lia | constructor].
Qed.

(** X11: a run that is not restarted and ends by exhaustion has invoked the
    sampler [ceil(num_samples / batch_size)] times, for a batch size of at
    least 1; every batch has between 1 and [batch_size] points, and every
    batch but the last has exactly [batch_size]. *)
Theorem batch_count (num_samples : Z) (batch_size : option Z)
    (g : Np.generator) (script : list pause) :
  let b := effective_batch_size num_samples batch_size in
  let o := monte_carlo_pi_animation num_samples batch_size g script in
  1 <= b -> no_restart script -> exited o = Some Exhausted ->
  length (batches (trace o)) = Z.to_nat (ceil_div num_samples b) /\
  Forall (fun bd => 1 <= fst bd <= b) (batches (trace o)) /\
  Forall (fun bd => fst bd = b) (removelast (batches (trace o))).
Proof.
  cbn zeta. rewrite monte_carlo_pi_animation_loop.
  intros Hb Hno Hexit.
  rewrite (batches_schedule num_samples _ Hb script (initial g) Hno Hexit).
  cbn [initial samples_done].
  pose proof (schedule_shape num_samples
                (effective_batch_size num_samples batch_size)
                (Z.to_nat (num_samples - 0)) Hb 0 ltac:(lia)) as H.
  cbn zeta in H. rewrite Z.sub_0_r in *. exact H.
Qed.

Lemma batch_count_witness :
  let o := monte_carlo_pi_animation 500 (Some 200) halves (press_start 5) in
  1 <= effective_batch_size 500 (Some 200) /\
  no_restart (press_start 5) /\ exited o = Some Exhausted /\
  length (batches (trace o)) = Z.to_nat (ceil_div 500 200) /\
  Z.to_nat (ceil_div 500 200) = 3%nat.
Proof.
  cbn zeta.
  assert (Hb : 1 <= effective_batch_size 500 (Some 200)) by (cbn; lia).
  assert (He : exited (monte_carlo_pi_animation 500 (Some 200) halves
                         (press_start 5)) = Some Exhausted)
    by (vm_compute; reflexivity).
  destruct (batch_count 500 (Some 200) halves (press_start 5) Hb
              (no_restart_press_start 5) He) as (Hl & _).
  split; [exact Hb|]. split; [apply no_restart_press_start|].
  split; [exact He|]. split; [exact Hl | reflexivity].
Defined.

(** ** Cadence *)

Lemma paced_block (tr : list event) (B i d : Z) (offs : list (float * float)) :
  paced ([Sampled B i d] ++ [Rendered i d offs] ++ tr) = paced tr /\
  paced ([Rendered i d offs] ++ tr) = paced tr.
Proof. cbn. now rewrite !Z.eqb_refl. Qed.

Lemma paced_renders :
  forall tr,
    (paced tr = true -> (length (batches tr) <= renders tr)%nat) /\
    (forall e, paced (e :: tr) = true ->
               (length (batches (e :: tr)) <= renders (e :: tr))%nat).
Proof.
  induction tr as [|e' tr [IH1 IH2]].
  - split; [cbn; lia|]. intros [B i d|i d l]; cbn; [discriminate | lia].
  - split; [apply IH2|].
    intros [B i d|i d l] H.
    + destruct e' as [B' i' d'|i' d' l']; [discriminate H|].
      cbn in H. apply andb_prop in H. destruct H as [_ H].
      specialize (IH1 H). cbn. lia.
    + change (paced (e' :: tr) = true) in H.
      specialize (IH2 e' H). cbn [batches renders length] in *. lia.
Qed.

(** X12: every pass that samples renders: in the trace of every run each
    sampler invocation is followed at once by a rendering with the
    statistics that invocation left, so there are at least as many
    renderings as batches. *)
Theorem every_batch_is_rendered (num_samples : Z) (batch_size : option Z)
    (g : Np.generator) (script : list pause) :
  let tr := trace (monte_carlo_pi_animation num_samples batch_size g script) in
  paced tr = true /\ (length (batches tr) <= renders tr)%nat.
Proof.
  cbn zeta. rewrite monte_carlo_pi_animation_loop.
  assert (H : paced (trace (loop num_samples
                (effective_batch_size num_samples batch_size) script
                (initial g))) = true).
  { generalize (initial g). revert script.
    apply (loop_passes num_samples
             (effective_batch_size num_samples batch_size)
             (fun s st o => paced (trace o) = true));
      cbn [trace emit]; intros; try reflexivity; try assumption.
    - apply tick_Some in H1.
      destruct H1 as (s1 & sampled & _ & -> & Hcase).
      destruct Hcase as [(_ & B & _ & ->) | (_ & _ & ->)];
        rewrite app_nil_r; cbn; now rewrite ?Z.eqb_refl.
    - apply tick_Some in H1.
      destruct H1 as (s1 & sampled & _ & -> & Hcase).
      destruct Hcase as [(_ & B & _ & ->) | (_ & _ & ->)];
        rewrite app_nil_r; cbn; now rewrite ?Z.eqb_refl.
    - apply tick_Some in H1.
      destruct H1 as (s1 & sampled & _ & -> & Hcase).
      destruct Hcase as [(_ & B & _ & ->) | (_ & _ & ->)];
        rewrite <- app_assoc.
      + now rewrite (proj1 (paced_block _ _ _ _ _)).
      + cbn [app]. exact H3. }
  split; [exact H|]. now apply paced_renders.
Qed.

(** ** More on the [--samples] argument *)

Lemma remove_char_app (old : N) (s1 s2 : str) :
  remove_char old (s1 ++ s2) = remove_char old s1 ++ remove_char old s2.
Proof.
  induction s1 as [|c s1 IH]; simpl; [reflexivity|].
  destruct (c =? old)%N; simpl; now rewrite IH.
Qed.

Lemma remove_char_other (old c : N) (s : str) :
  (c =? old)%N = false ->
  remove_char old (c :: s) = c :: remove_char old s.
Proof. intros H. simpl. now rewrite H. Qed.

Lemma remove_char_same (old : N) (s : str) :
  remove_char old (old :: s) = remove_char old s.
Proof. simpl. now rewrite N.eqb_refl. Qed.

(** X13: a comma or an underscore, wherever it stands in the argument, changes
    nothing: [main] does with the argument what it does without it. *)
Theorem separators_are_ignored (py : interpreter) (s1 s2 : str) (sep : N)
    (batch : option Z) (g : Np.generator) (script : list pause) :
  sep = 44%N \/ sep = 95%N ->
  main py (s1 ++ sep :: s2) batch g script = main py (s1 ++ s2) batch g script.
Proof.
  intros Hsep. unfold main.
  replace (remove_char 95 (remove_char 44 (s1 ++ sep :: s2)))
    with (remove_char 95 (remove_char 44 (s1 ++ s2))); [reflexivity|].
  rewrite !remove_char_app. f_equal.
  destruct Hsep as [-> | ->].
  - now rewrite remove_char_same.
  - rewrite (remove_char_other 44 95) by reflexivity.
    now rewrite remove_char_same.
Qed.

Lemma separators_are_ignored_witness :
  main reference_interpreter (of_string "1,000") None halves [] =
  main reference_interpreter (of_string "1000") None halves [] /\
  main reference_interpreter (of_string "1_0__0,0") None halves [] =
  main reference_interpreter (of_string "1_0_0,0") None halves [].
Proof.
  split.
  - apply (separators_are_ignored reference_interpreter (of_string "1")
             (of_string "000") 44 None halves []). now left.
  - apply (separators_are_ignored reference_interpreter (of_string "1_0_")
             (of_string "0,0") 95 None halves []). now right.
Defined.

Lemma digits_nonneg (s : str) :
  forall acc after_digit v,
    0 <= acc -> PyInt.digits s acc after_digit = Some v -> 0 <= v.
Proof.
  induction s as [|c s IH]; intros acc after_digit v Hacc H; simpl in H.
  - destruct after_digit; [injection H as <-; exact Hacc | discriminate].
  - destruct (PyInt.digit c) as [d|] eqn:Hd.
    + apply (IH (10 * acc + d) true v); [|exact H].
      apply digit_range in Hd. lia.
    + destruct after_digit; cbn [negb] in H; [|discriminate].
      destruct (c =? 95)%N; [now apply (IH acc false v)|].
      destruct (PyInt.is_space c && PyInt.all_space s)%bool;
        [injection H as <-; exact Hacc | discriminate].
Qed.

Lemma normalize_minus (py : interpreter) (s : str) :
  exists t, PyInt.normalize py (45%N :: s) = 45%N :: t.
Proof.
  unfold PyInt.normalize. cbn [forallb map].
  destruct ((45 <? 128)%N && forallb (fun c => (c <? 128)%N) s);
    eexists; reflexivity.
Qed.

(** X14: an argument that begins with a minus sign never starts a run: what
    follows the sign is not a number, or the number is not positive. *)
Theorem minus_sign_is_rejected (py : interpreter) (s : str)
    (batch : option Z) (g : Np.generator) (script : list pause) :
  main py (45%N :: s) batch g script = ([invalid_samples], NoRun).
Proof.
  unfold main.
  rewrite (remove_char_other 44 45) by reflexivity.
  rewrite (remove_char_other 95 45) by reflexivity.
  unfold PyInt.int.
  destruct (normalize_minus py (remove_char 95 (remove_char 44 s)))
    as (t & ->).
  unfold PyInt.from_string. cbn [PyInt.lstrip].
  change (PyInt.is_space 45) with false. cbv iota.
  change (45 =? 45)%N with true. cbv iota.
  destruct (PyInt.digits t 0 false) as [v|] eqn:E; cbn [option_map];
    [|reflexivity].
  apply digits_nonneg in E; [|lia].
  destruct (PyInt.too_long py (45%N :: t)); [reflexivity|].
  destruct (- v <=? 0) eqn:E'; [reflexivity | lia].
Qed.

Lemma lstrip_all_space (s : str) :
  PyInt.all_space s = true -> PyInt.lstrip s = [].
Proof.
  induction s as [|c s IH]; simpl; [reflexivity|].
  intros H. apply andb_prop in H. destruct H as [Hc Hs].
  rewrite Hc. now apply IH.
Qed.

(** X15: an argument with nothing in it but separators and white space (the
    empty argument too) is reported as invalid. *)
Theorem blank_samples_rejected (py : interpreter) (samples : str)
    (batch : option Z) (g : Np.generator) (script : list pause) :
  PyInt.all_space
    (PyInt.normalize py (remove_char 95 (remove_char 44 samples))) = true ->
  main py samples batch g script = ([invalid_samples], NoRun).
Proof.
  intros H. unfold main, PyInt.int, PyInt.from_string.
  rewrite lstrip_all_space by exact H. reflexivity.
Qed.

Lemma blank_samples_rejected_witness :
  main reference_interpreter [] None halves [] = ([invalid_samples], NoRun) /\
  main reference_interpreter (of_string " ,_, ") None halves [] =
    ([invalid_samples], NoRun) /\
  main reference_interpreter [32; 44; 160; 8195]%N None halves [] =
    ([invalid_samples], NoRun).
Proof.
  split; [|split]; apply blank_samples_rejected; reflexivity.
Defined.

Lemma all_space_numeral (s : str) :
  PyInt.all_space s = true -> forallb numeral_char s = true.
Proof.
  induction s as [|a s IH]; [reflexivity|]. cbn. intros H.
  apply andb_prop in H. destruct H as [Ha Hs].
  rewrite (IH Hs), andb_true_r.
  unfold numeral_char. rewrite Ha. now rewrite orb_true_r.
Qed.

Lemma digits_numeral (s : str) :
  forall acc after_digit v,
    PyInt.digits s acc after_digit = Some v ->
    forallb numeral_char s = true.
Proof.
  induction s as [|c s IH]; intros acc after_digit v H; simpl in *;
    [reflexivity|].
  destruct (PyInt.digit c) as [d|] eqn:Hd.
  - unfold numeral_char at 1. rewrite (digit_is_digit c d Hd). cbn. eauto.
  - destruct after_digit; cbn [negb] in H; [|discriminate].
    destruct (c =? 95)%N eqn:Hu.
    + unfold numeral_char at 1. rewrite Hu.
      rewrite !orb_true_r, ?orb_true_l. cbn. eauto.
    + destruct (PyInt.is_space c && PyInt.all_space s)%bool eqn:Hs;
        [|discriminate].
      change (forallb numeral_char (c :: s) = true).
      apply all_space_numeral. exact Hs.
Qed.

Lemma from_string_chars (py : interpreter) (s : str) (n : Z) :
  PyInt.from_string py s = Some n -> forallb numeral_char s = true.
Proof.
  unfold PyInt.from_string.
  destruct (lstrip_split s) as (ws & Hs & Hws).
  intros H. rewrite Hs, forallb_app, (all_space_numeral ws Hws). cbn.
  destruct (PyInt.lstrip s) as [|c s'] eqn:El; [reflexivity|].
  destruct (N.eqb_spec c 45) as [->|H45].
  - destruct (PyInt.digits s' 0 false) as [v|] eqn:Ed; [|discriminate].
    cbn. eapply digits_numeral. exact Ed.
  - destruct (N.eqb_spec c 43) as [->|H43].
    + destruct (PyInt.digits s' 0 false) as [v|] eqn:Ed; [|discriminate].
      cbn. eapply digits_numeral. exact Ed.
    + destruct (PyInt.digits (c :: s') 0 false) as [v|] eqn:Ed;
        [|discriminate].
      eapply digits_numeral. exact Ed.
Qed.

(** X16: an argument with a character in it that is neither a digit, white
    space, a sign or a separator nor one that the interpreter reads as a
    digit or as white space (a decimal point, an exponent, a letter) is
    reported as invalid. *)
Theorem foreign_character_rejected (py : interpreter) (samples : str)
    (c : N) (batch : option Z) (g : Np.generator) (script : list pause) :
  In c samples -> c <> 44%N ->
  numeral_char c = false -> numeral_char (PyInt.to_ascii py c) = false ->
  main py samples batch g script = ([invalid_samples], NoRun).
Proof.
  intros Hin Hcomma Hc Hc'.
  assert (Hu : c <> 95%N) by (intros ->; discriminate Hc).
  assert (Hin' : In c (remove_char 95 (remove_char 44 samples)))
    by (rewrite !remove_char_In; tauto).
  unfold main.
  destruct (PyInt.int py (remove_char 95 (remove_char 44 samples)))
    as [n|] eqn:E; [|reflexivity].
  unfold PyInt.int in E. apply from_string_chars in E.
  rewrite forallb_forall in E.
  destruct (In_normalize py _ c Hin') as [H|H]; apply E in H; congruence.
Qed.

Lemma foreign_character_rejected_witness :
  main reference_interpreter (of_string "1e6") None halves [] =
    ([invalid_samples], NoRun) /\
  main reference_interpreter (of_string "2.5") None halves [] =
    ([invalid_samples], NoRun) /\
  main reference_interpreter [53; 1600]%N None halves [] =
    ([invalid_samples], NoRun).
Proof.
  split; [|split].
  - apply (foreign_character_rejected reference_interpreter _ 101);
      cbn; try tauto; try reflexivity; discriminate.
  - apply (foreign_character_rejected reference_interpreter _ 46);
      cbn; try tauto; try reflexivity; discriminate.
  - apply (foreign_character_rejected reference_interpreter _ 1600);
      cbn; try tauto; try reflexivity; discriminate.
Defined.

(** ** One pass at a time *)

(** X17: a pass displays 100 more points at most, the first ones of the queue in
    their order, and renders once. *)
Theorem pass_displays_at_most_100 (num_samples batch_size : Z)
    (st st1 : state) (evs : list event) :
  aligned st -> tick num_samples batch_size st = Some (st1, evs) ->
  exists shown,
    displayed st1 = displayed st ++ shown /\ (length shown <= 100)%nat /\
    (point_queue st <> [] ->
     shown = firstn 100 (point_queue st) /\
     point_queue st1 = skipn 100 (point_queue st)) /\
    renders evs = 1%nat.
Proof.
  intros Ha Ht. apply tick_Some in Ht.
  destruct Ht as (s1 & sampled & -> & -> & Hcase).
  assert (H1 : aligned s1 /\ displayed s1 = displayed st).
  { destruct Hcase as [(_ & B & Hsm & _) | (_ & -> & _)]; [|tauto].
    apply sample_Some in Hsm.
    destruct Hsm as (_ & _ & _ & _ & _ & _ & Hx & Hy & Hcl & _).
    unfold aligned, displayed. rewrite Hx, Hy, Hcl.
    split; [exact Ha | reflexivity]. }
  destruct H1 as (Ha1 & Hd1).
  destruct (displayed_drain s1 Ha1) as (Hdd & Hqd & _). cbn zeta in *.
  change (point_queue (render num_samples (drain s1)))
    with (point_queue (drain s1)).
  change (displayed (render num_samples (drain s1)))
    with (displayed (drain s1)).
  exists (firstn (Nat.min 100 (length (point_queue s1))) (point_queue s1)).
  split; [now rewrite Hdd, Hd1|].
  split; [rewrite length_firstn; lia|]. split.
  - intros Hne. destruct Hcase as [(Hq & _) | (_ & -> & _)];
      [contradiction|].
    rewrite Hqd.
    destruct (Nat.le_gt_cases 100 (length (point_queue st))).
    + replace (Nat.min 100 (length (point_queue st))) with 100%nat by lia.
      split; reflexivity.
    + replace (Nat.min 100 (length (point_queue st)))
        with (length (point_queue st)) by lia.
      rewrite firstn_all, skipn_all.
      rewrite firstn_all2, skipn_all2 by lia. split; reflexivity.
  - destruct Hcase as [(_ & B & _ & ->) | (_ & _ & ->)]; reflexivity.
Qed.

Lemma pass_displays_at_most_100_witness :
  match tick 500 200 (start (initial halves)) with
  | Some (st1, evs) =>
      length (displayed st1) = 100%nat /\ renders evs = 1%nat /\
      match tick 500 200 st1 with
      | Some (st2, _) =>
          exists shown, displayed st2 = displayed st1 ++ shown /\
                        shown = firstn 100 (point_queue st1)
      | None => False
      end
  | None => False
  end.
Proof.
  destruct (tick 500 200 (start (initial halves))) as [[st1 evs]|] eqn:E1;
    [|vm_compute in E1; discriminate].
  assert (Ha0 : aligned (start (initial halves))) by (split; reflexivity).
  destruct (pass_displays_at_most_100 500 200 _ st1 evs Ha0 E1)
    as (shown & Hd & _ & _ & Hr).
  assert (Hlen : length (displayed st1) = 100%nat).
  { assert (E : option_map (fun r => length (displayed (fst r)))
                  (tick 500 200 (start (initial halves))) = Some 100%nat)
      by (vm_compute; reflexivity).
    rewrite E1 in E. cbn in E. congruence. }
  split; [exact Hlen|]. split; [exact Hr|].
  assert (Ha1 : aligned st1).
  { destruct (tick_continues 500 200 _ st1 evs Ha0 E1) as [_ H]. exact H. }
  assert (Hq1 : point_queue st1 <> []).
  { assert (E : option_map (fun r => length (point_queue (fst r)))
                  (tick 500 200 (start (initial halves))) = Some 100%nat)
      by (vm_compute; reflexivity).
    rewrite E1 in E. cbn in E. intros Hnil. rewrite Hnil in E.
    discriminate. }
  destruct (tick 500 200 st1) as [[st2 evs2]|] eqn:E2.
  - destruct (pass_displays_at_most_100 500 200 st1 st2 evs2 Ha1 E2)
      as (shown2 & Hd2 & _ & Hs2 & _).
    exists shown2. split; [exact Hd2 | apply (Hs2 Hq1)].
  - apply tick_None in E2. destruct E2 as [E2 _]. contradiction.
Defined.

(** ** The generator *)

Lemma sample_rng (num_samples batch_size : Z) (st st' : state) (B : Z) :
  sample num_samples batch_size st = Some (st', B) ->
  Np.stream (rng st') = Np.stream (rng st) /\
  Z.of_N (Np.consumed (rng st')) = Z.of_N (Np.consumed (rng st)) + 2 * B.
Proof.
  unfold sample.
  set (c := Z.min batch_size (num_samples - samples_done st)).
  destruct (c <? 0) eqn:Hneg; [discriminate|].
  apply Z.ltb_ge in Hneg.
  intros H. injection H as <- <-. cbn [rng Np.uniform snd Np.stream
    Np.consumed].
  split; [reflexivity|]. lia.
Qed.

(** X18: every sample costs two values of the generator and none is used twice:
    at the end of a run the stream is the one the run began with and the
    cursor has advanced by twice the number of points of all the batches
    drawn, restarts included (a restart does not rewind the generator). *)
Theorem two_draws_per_sample (num_samples : Z) (batch_size : option Z)
    (g : Np.generator) (script : list pause) :
  let o := monte_carlo_pi_animation num_samples batch_size g script in
  Np.stream (rng (final o)) = Np.stream g /\
  Z.of_N (Np.consumed (rng (final o))) =
    Z.of_N (Np.consumed g) + 2 * samples_drawn (trace o) /\
  (no_restart script ->
   samples_drawn (trace o) = samples_done (final o)).
Proof.
  cbn zeta. rewrite monte_carlo_pi_animation_loop.
  set (b := effective_batch_size num_samples batch_size).
  assert (Step : forall st st1 evs,
    tick num_samples b st = Some (st1, evs) ->
    Np.stream (rng st1) = Np.stream (rng st) /\
    Z.of_N (Np.consumed (rng st1)) =
      Z.of_N (Np.consumed (rng st)) + 2 * samples_drawn evs /\
    samples_done st1 = samples_done st + samples_drawn evs).
  { intros st st1 evs Ht. pose proof Ht as Hs. apply tick_statistics in Hs.
    destruct Hs as (B & c & _ & Hcase & _ & Hd & _).
    apply tick_Some in Ht. destruct Ht as (s1 & sampled & -> & _ & Hc2).
    destruct (drain_spec s1) as (_ & _ & _ & _ & _ & _ & _ & Hg & _).
    cbn [render rng]. rewrite Hg. unfold samples_drawn.
    destruct Hc2 as [(Hq & B' & Hsm & _) | (Hne & -> & _)].
    - destruct Hcase as [(_ & HB & ->) | (Hne & _)]; [|contradiction].
      pose proof Hsm as Hsm'. apply sample_Some in Hsm'.
      destruct Hsm' as (HB' & _). apply sample_rng in Hsm.
      cbn [fold_right fst]. rewrite Hd.
      assert (B' = B) by congruence. subst B'.
      destruct Hsm as [Hst Hco]. rewrite Hst, Hco.
      repeat split; lia.
    - destruct Hcase as [(Hq & _) | (_ & -> & ->)]; [contradiction|].
      cbn [fold_right]. rewrite Hd. repeat split; lia. }
  assert (Happ : forall t1 t2,
    samples_drawn (t1 ++ t2) = samples_drawn t1 + samples_drawn t2).
  { intros t1 t2. unfold samples_drawn. rewrite batches_app.
    induction (batches t1) as [|bd l IH]; cbn [app fold_right]; lia. }
  assert (Main : forall s st,
    let o := loop num_samples b s st in
    Np.stream (rng (final o)) = Np.stream (rng st) /\
    Z.of_N (Np.consumed (rng (final o))) =
      Z.of_N (Np.consumed (rng st)) + 2 * samples_drawn (trace o) /\
    (no_restart s ->
     samples_done (final o) = samples_done st + samples_drawn (trace o))).
  { apply (loop_passes num_samples b (fun s st o =>
      Np.stream (rng (final o)) = Np.stream (rng st) /\
      Z.of_N (Np.consumed (rng (final o))) =
        Z.of_N (Np.consumed (rng st)) + 2 * samples_drawn (trace o) /\
      (no_restart s ->
       samples_done (final o) = samples_done st + samples_drawn (trace o))));
      cbn [final trace emit]; intros.
    - repeat split; cbn; lia.
    - rewrite pause_keeps_rng. split; [reflexivity|].
      split; [cbn; lia|]. intros Hno. inversion Hno; subst.
      destruct (pause_keeps_statistics p H3 st) as (Hd & _).
      rewrite Hd. cbn. lia.
    - destruct H1 as (Hs & Hc & Hd). rewrite pause_keeps_rng in Hs, Hc.
      split; [exact Hs|]. split; [exact Hc|].
      intros Hno. inversion Hno; subst.
      destruct (pause_keeps_statistics p H3 st) as (Hd' & _).
      rewrite Hd by assumption. now rewrite Hd'.
    - repeat split; cbn; lia.
    - repeat split; cbn; lia.
    - destruct (Step st st1 evs H1) as (Hs & Hc & Hd).
      rewrite app_nil_r. split; [exact Hs|]. split; [exact Hc|].
      intros _. exact Hd.
    - destruct (Step st st1 evs H1) as (Hs & Hc & Hd).
      rewrite app_nil_r, pause_keeps_rng.
      split; [exact Hs|]. split; [exact Hc|].
      intros Hno. inversion Hno; subst.
      destruct (pause_keeps_statistics p H5 st1) as (Hd' & _).
      now rewrite Hd'.
    - destruct (Step st st1 evs H1) as (Hs & Hc & Hd).
      destruct H3 as (Hs' & Hc' & Hd'). rewrite pause_keeps_rng in Hs', Hc'.
      rewrite Happ.
      split; [congruence|]. split; [lia|].
      intros Hno. inversion Hno; subst.
      destruct (pause_keeps_statistics p H5 st1) as (Hd'' & _).
      rewrite Hd' by assumption. lia. }
  destruct (Main script (initial g)) as (Hs & Hc & Hd).
  cbn [initial rng samples_done] in *.
  split; [exact Hs|]. split; [exact Hc|].
  intros Hno. rewrite (Hd Hno). lia.
Qed.

Lemma two_draws_per_sample_witness :
  let o := monte_carlo_pi_animation 500 (Some 200) halves (press_start 5) in
  no_restart (press_start 5) /\
  samples_drawn (trace o) = samples_done (final o) /\
  samples_done (final o) = 500 /\
  Np.consumed (rng (final o)) = 1000%N.
Proof.
  cbn zeta.
  destruct (two_draws_per_sample 500 (Some 200) halves (press_start 5))
    as (_ & _ & Hd).
  split; [apply no_restart_press_start|].
  split; [apply Hd, no_restart_press_start|].
  split; vm_compute; reflexivity.
Defined.
